(** * Storage management handlers (server/handles/storage.go)

    A shallow embedding of the management plane for storage mounts:
    path scoping by string prefix, the handlers for list / create /
    update / delete / disable / enable / get, the aggregation of
    per-driver details with its select loop, and the reload of all
    enabled storages.

    Go strings are byte sequences and are modelled by [string]; [uint]
    identifiers are [Z] with the 64-bit wrap written out; calls that
    leave the package (store, op layer, drivers, signals, log) are
    answered by an environment record and recorded in a trace. *)

From Stdlib Require Import ZArith Ascii String Lia Sorted.
From stdpp Require Import base list strings.

Local Open Scope Z_scope.
Local Open Scope stdpp_scope.

#[local] Arguments String.append !_ _ / : simpl nomatch.

(** ** Go's [strings] package: the two functions the handlers use. *)
Module GoStrings.

(** [strings.HasPrefix(s, prefix)]: [s] begins with [prefix], byte by byte. *)
Fixpoint HasPrefix (s prefix : string) {struct prefix} : bool :=
  match prefix, s with
  | EmptyString, _ => true
  | String _ _, EmptyString => false
  | String a prefix', String b s' => Ascii.eqb a b && HasPrefix s' prefix'
  end.

(** [strings.TrimPrefix(s, prefix)]: [s] without the leading [prefix];
    [s] itself when it does not start with [prefix]. *)
Fixpoint drop (n : nat) (s : string) : string :=
  match n, s with
  | O, _ => s
  | S _, EmptyString => EmptyString
  | S n', String _ s' => drop n' s'
  end.

Definition TrimPrefix (s prefix : string) : string :=
  if HasPrefix s prefix then drop (String.length prefix) s else s.

End GoStrings.

(** ** Go's [path] package: [Clean] and [Join].

    [Clean] is rendered element by element, which is how the package
    documents it: empty and [.] elements are dropped, an inner [..]
    removes the element before it, a [..] at the start of a rooted path
    is dropped, and at the start of a relative path it is kept. *)
Module GoPath.

Definition slash : ascii := "/"%char.

(** [strings.Split(s, "/")]. *)
Fixpoint split (s : string) : list string :=
  match s with
  | EmptyString => [EmptyString]
  | String c s' =>
      if Ascii.eqb c slash then EmptyString :: split s'
      else match split s' with
           | h :: t => String c h :: t
           | [] => [String c EmptyString]
           end
  end.

Definition rooted (p : string) : bool :=
  match p with
  | String c _ => Ascii.eqb c slash
  | EmptyString => false
  end.

(** One element of the path against the output built so far (a stack,
    last element first). [out.w > dotdot] in the source is: the stack
    has an element that is not [..]. *)
Definition step (is_rooted : bool) (out : list string) (elem : string) : list string :=
  if String.eqb elem "" then out
  else if String.eqb elem "." then out
  else if String.eqb elem ".." then
    match out with
    | top :: rest =>
        if String.eqb top ".." then elem :: out else rest
    | [] => if is_rooted then out else [elem]
    end
  else elem :: out.

Definition elements (is_rooted : bool) (p : string) : list string :=
  rev (fold_left (step is_rooted) (split p) []).

Fixpoint join_elems (l : list string) : string :=
  match l with
  | [] => ""
  | [e] => e
  | e :: l' => e +:+ "/" +:+ join_elems l'
  end.

Definition Clean (p : string) : string :=
  if String.eqb p "" then "."
  else
    let r := rooted p in
    let body := join_elems (elements r p) in
    if r then "/" +:+ body
    else if String.eqb body "" then "." else body.

(** [path.Join(a, b)] for two elements. *)
Definition Join (a b : string) : string :=
  if String.eqb a "" && String.eqb b "" then ""
  else if String.eqb a "" then Clean b
  else if String.eqb b "" then Clean a
  else Clean (a +:+ "/" +:+ b).

End GoPath.


(** ** Data model *)

(** [error] values the handlers tell apart with [errors.Is], and all others. *)
Inductive error : Type :=
  | errs_NotImplement
  | errs_StorageNotInit
  | errors_New (msg : string).

Definition errors_Is (e target : error) : bool :=
  match e, target with
  | errs_NotImplement, errs_NotImplement => true
  | errs_StorageNotInit, errs_StorageNotInit => true
  | errors_New a, errors_New b => String.eqb a b
  | _, _ => false
  end.

(** [model.User]: the fields and the [IsAdmin()] answer the handlers read. *)
Record User : Type := mkUser {
  Username : string;
  IsAdmin : bool;
  BasePath : string
}.

(** [model.Storage]: [ID] is a [uint]; the remaining fields are carried along. *)
Record Storage : Type := mkStorage {
  ID : Z;
  MountPath : string;
  Driver : string;
  Disabled : bool
}.

Definition set_MountPath (s : Storage) (mp : string) : Storage :=
  {| ID := ID s; MountPath := mp; Driver := Driver s; Disabled := Disabled s |}.

(** [model.StorageDetails]: the payload a driver reports; not interpreted here. *)
Record StorageDetails : Type := mkDetails {
  DriverName : string;
  TotalSpace : Z;
  FreeSpace : Z
}.

(** A live driver ([driver.Driver]): the storage it serves ([GetStorage()], here [dri_GetStorage])
    and whether it implements [driver.WithDetails]. *)
Record driver_Driver : Type := mkDriver {
  dri_GetStorage : Storage;
  WithDetails : bool
}.

Record StorageResp : Type := mkStorageResp {
  Storage_ : Storage;
  MountDetails : option StorageDetails
}.

Record detailWithIndex : Type := mkDetailWithIndex {
  idx : nat;
  val : option StorageDetails
}.

Record PageReq : Type := mkPageReq {
  Page : Z;
  PerPage : Z
}.

(** What a handler hands to [common.*Resp]. *)
Inductive RespData : Type :=
  | H_id (id : Z)
  | PageResp (Content : list StorageResp) (Total : Z)
  | StorageData (s : Storage).

Inductive Resp : Type :=
  | ErrorResp (err : error) (code : Z) (l : bool)
  | ErrorStrResp (str : string) (code : Z)
  | ErrorWithDataResp (err : error) (code : Z) (data : RespData) (l : bool)
  | SuccessResp (data : option RespData)
  | Panic.

(** [uint(id)] on a 64-bit platform. *)
Definition uint (id : Z) : Z := id mod 2 ^ 64.

(** ** Calls that leave the package, and their trace *)

Inductive LogLevel : Type := Debugf | Infof | Errorf.

Local Set Warnings "-register-all,-abstract-large-number".

(** [Go body] is a [go] statement, with the trace of the goroutine it
    starts; [ChanSend] and [ChanRecv] are the two ends of [detailsChan];
    [TimeAfterFired] is the timer case of the [select]. *)
Inductive Call : Type :=
  | DbGetStorages (page perPage : Z)
  | DbGetStorageById (id : Z)
  | DbGetEnabledStorages
  | OpCreateStorage (s : Storage)
  | OpUpdateStorage (s : Storage)
  | OpDeleteStorageById (id : Z)
  | OpDisableStorage (id : Z)
  | OpEnableStorage (id : Z)
  | OpGetStorageByMountPath (mountPath : string)
  | OpGetStorageDetails (d : driver_Driver)
  | OpLoadStorage (s : Storage)
  | DriverDrop (d : driver_Driver)
  | ConfResetStoragesLoadSignal
  | ConfSendStoragesLoadedSignal
  | Log (lvl : LogLevel) (format : string)
  | ChanSend (r : detailWithIndex)
  | ChanRecv (r : detailWithIndex)
  | TimeAfterFired
  | Go (body : list Call).

(** The answers of the collaborators: the store ([db]), the op layer
    ([op]), the drivers ([Drop]), the setting read by
    [setting.GetBool(conf.HideStorageDetailsInManagePage)], and the two
    library calls [strconv.Atoi] and [PageReq.Validate]. A Go result pair
    [(v, err)] whose value is read only when [err == nil] is a [sum]; where
    the source reads both, it is a pair. *)
Record Env : Type := mkEnv {
  strconv_Atoi : string -> sum Z error;
  PageReq_Validate : PageReq -> PageReq;
  HideStorageDetailsInManagePage : bool;
  db_GetStorages : Z -> Z -> sum (list Storage * Z) error;
  db_GetStorageById : Z -> sum Storage error;
  db_GetEnabledStorages : sum (list Storage) error;
  op_CreateStorage : Storage -> Z * option error;
  op_UpdateStorage : Storage -> option error;
  op_DeleteStorageById : Z -> option error;
  op_DisableStorage : Z -> option error;
  op_EnableStorage : Z -> option error;
  op_GetStorageByMountPath : string -> sum driver_Driver error;
  op_GetStorageDetails : driver_Driver -> option StorageDetails * option error;
  op_LoadStorage : Storage -> option error;
  Drop : driver_Driver -> option error
}.

(** When the goroutine dispatched for slot [i] puts its message on the
    channel, in milliseconds after the start of the collection loop
    ([None]: never), and which case [select] takes when a message and the
    timer become ready at the same instant. *)
Record Sched : Type := mkSched {
  arrival : nat -> option nat;
  tie_recv : bool
}.

(** The request: the user stored under [conf.UserKey], the [id] query
    parameter and what [ShouldBind] yields. *)
Record gin_Context : Type := mkContext {
  UserKey : option User;
  Query_id : string;
  ShouldBind_Storage : sum Storage error;
  ShouldBind_PageReq : sum PageReq error
}.

(** A computation with the trace of its calls. *)
Definition M (A : Type) : Type := (A * list Call)%type.

#[export] Instance M_ret : MRet M := fun A a => (a, []).
#[export] Instance M_bind : MBind M := fun A B k m =>
  (fst (k (fst m)), snd m ++ snd (k (fst m))).

Definition call {A : Type} (c : Call) (answer : A) : M A := (answer, [c]).
Definition result {A : Type} (m : M A) : A := fst m.
Definition trace {A : Type} (m : M A) : list Call := snd m.

Section Handlers.

Context (env : Env) (sched : Sched).

(** *** makeStorageResp *)

(** Lines 43-49, and again 279-285 in [GetStorage]: the tenant view of a
    mount path. *)
Definition strip_BasePath (user : option User) (s : Storage) : Storage :=
  match user with
  | Some u =>
      if negb (IsAdmin u) && GoStrings.HasPrefix (MountPath s) (BasePath u) then
        let mp := GoStrings.TrimPrefix (MountPath s) (BasePath u) in
        set_MountPath s (if String.eqb mp "" then "/" else mp)
      else s
  | None => s
  end.

(** The goroutine of lines 67-75. *)
Definition worker (dri : driver_Driver) (i : nat) : M detailWithIndex :=
  r ← call (OpGetStorageDetails dri) (op_GetStorageDetails env dri);
  _ ← match r.2 with
      | Some e =>
          if negb (errors_Is e errs_NotImplement) &&
             negb (errors_Is e errs_StorageNotInit)
          then call (Log Errorf "failed get %s details: %+v") tt
          else mret tt
      | None => mret tt
      end;
  call (ChanSend (mkDetailWithIndex i r.1)) (mkDetailWithIndex i r.1).

(** The first loop (lines 42-76), from index [i] on: the responses with
    nil details, and the slots a goroutine was started for. *)
Fixpoint dispatch (user : option User) (i : nat) (storages : list Storage)
  : M (list StorageResp * list (nat * driver_Driver)) :=
  match storages with
  | [] => mret ([], [])
  | s :: storages' =>
      let s := strip_BasePath user s in
      w ← (if HideStorageDetailsInManagePage env then mret None
           else
             d ← call (OpGetStorageByMountPath (MountPath s))
                      (op_GetStorageByMountPath env (MountPath s));
             match d with
             | inr _ => mret None
             | inl d =>
                 if WithDetails d
                 then call (Go (trace (worker d i))) (Some d)
                 else mret None
             end);
      rest ← dispatch user (S i) storages';
      mret (mkStorageResp s None :: rest.1,
            match w with
            | Some d => (i, d) :: rest.2
            | None => rest.2
            end)
  end.

(** The channel, in the order the messages arrive. *)
Fixpoint enqueue (m : nat * detailWithIndex) (chan : list (nat * detailWithIndex))
  : list (nat * detailWithIndex) :=
  match chan with
  | [] => [m]
  | m' :: chan' =>
      if Nat.leb m.1 m'.1 then m :: chan else m' :: enqueue m chan'
  end.

Fixpoint detailsChan (workers : list (nat * driver_Driver))
  : list (nat * detailWithIndex) :=
  match workers with
  | [] => []
  | (i, d) :: workers' =>
      match arrival sched i with
      | Some t => enqueue (t, result (worker d i)) (detailsChan workers')
      | None => detailsChan workers'
      end
  end.

Definition set_MountDetails (v : option StorageDetails) (r : StorageResp) : StorageResp :=
  mkStorageResp (Storage_ r) v.

(** The second loop (lines 77-85) at time [now]: each [select] arms a new
    3000 ms timer; a message that is on the channel before it fires is
    received, at its arrival or at once when it is already there. The
    second component is the time at which the loop is left. *)
Fixpoint collect (workerCount : nat) (now : nat)
    (chan : list (nat * detailWithIndex)) (ret : list StorageResp)
  : M (list StorageResp * nat) :=
  match workerCount with
  | O => mret (ret, now)
  | S workerCount' =>
      match chan with
      | (t, r) :: chan' =>
          if Nat.ltb t (now + 3000) || (tie_recv sched && Nat.eqb t (now + 3000))
          then
            _ ← call (ChanRecv r) tt;
            collect workerCount' (Nat.max now t) chan'
                    (alter (set_MountDetails (val r)) (idx r) ret)
          else call TimeAfterFired (ret, (now + 3000)%nat)
      | [] => call TimeAfterFired (ret, (now + 3000)%nat)
      end
  end.

Definition makeStorageResp_timed (ctx : gin_Context) (storages : list Storage)
  : M (list StorageResp * nat) :=
  d ← dispatch (UserKey ctx) 0 storages;
  collect (length d.2) 0 (detailsChan d.2) d.1.

Definition makeStorageResp (ctx : gin_Context) (storages : list Storage)
  : M (list StorageResp) :=
  r ← makeStorageResp_timed ctx storages; mret r.1.

(** *** ListStorages and filterStorages *)

Fixpoint filter_loop (u : User) (storages : list Storage) : M (list Storage) :=
  match storages with
  | [] => mret []
  | s :: storages' =>
      _ ← call (Log Infof "Debug Filter: User=%s BasePath=%s Storage=%s Match=%v") tt;
      rest ← filter_loop u storages';
      mret (if GoStrings.HasPrefix (MountPath s) (BasePath u)
            then s :: rest else rest)
  end.

Definition filterStorages (c : gin_Context) (storages : list Storage)
  : M (list Storage) :=
  match UserKey c with
  | None => mret []
  | Some u => if IsAdmin u then mret storages else filter_loop u storages
  end.

Definition ListStorages (c : gin_Context) : M Resp :=
  match ShouldBind_PageReq c with
  | inr err => mret (ErrorResp err 400 false)
  | inl req =>
      let req := PageReq_Validate env req in
      _ ← call (Log Debugf "%+v") tt;
      r ← call (DbGetStorages (Page req) (PerPage req))
               (db_GetStorages env (Page req) (PerPage req));
      match r with
      | inr err => mret (ErrorResp err 500 false)
      | inl (storages, total) =>
          fs ← filterStorages c storages;
          content ← makeStorageResp c fs;
          mret (SuccessResp (Some (PageResp content total)))
      end
  end.

End Handlers.

Section Registry.

Context (env : Env).

Definition denied_under (user : User) : Resp :=
  ErrorStrResp ("permission denied: you can only mount under " +:+ BasePath user) 403.

(** Lines 137-141, and the same text at 178-181. *)
Definition rewrite_MountPath (user : User) (req : Storage) : Storage :=
  if negb (GoStrings.HasPrefix (MountPath req) (BasePath user))
  then set_MountPath req (GoPath.Join (BasePath user) (MountPath req))
  else req.

(** Lines 147-156. *)
Definition create (req : Storage) : M Resp :=
  r ← call (OpCreateStorage req) (op_CreateStorage env req);
  match r.2 with
  | Some err =>
      _ ← call (Log Errorf "Debug CreateStorage Failed: %v") tt;
      mret (ErrorWithDataResp err 500 (H_id r.1) true)
  | None => mret (SuccessResp (Some (H_id r.1)))
  end.

Definition CreateStorage (c : gin_Context) : M Resp :=
  match ShouldBind_Storage c with
  | inr err => mret (ErrorResp err 400 false)
  | inl req =>
      match UserKey c with
      | None => mret Panic
      | Some user =>
          _ ← call (Log Infof "Debug CreateStorage: User=%s IsAdmin=%v MountPath=%s BasePath=%s") tt;
          if negb (IsAdmin user) then
            let req := rewrite_MountPath user req in
            if negb (GoStrings.HasPrefix (MountPath req) (BasePath user))
            then mret (denied_under user)
            else create req
          else create req
      end
  end.

(** Lines 187-191. *)
Definition update (req : Storage) : M Resp :=
  e ← call (OpUpdateStorage req) (op_UpdateStorage env req);
  match e with
  | Some err => mret (ErrorResp err 500 true)
  | None => mret (SuccessResp None)
  end.

Definition UpdateStorage (c : gin_Context) : M Resp :=
  match ShouldBind_Storage c with
  | inr err => mret (ErrorResp err 400 false)
  | inl req =>
      match UserKey c with
      | None => mret Panic
      | Some user =>
          if negb (IsAdmin user) then
            oldS ← call (DbGetStorageById (ID req)) (db_GetStorageById env (ID req));
            match oldS with
            | inr err => mret (ErrorResp err 500 false)
            | inl oldS =>
                if negb (GoStrings.HasPrefix (MountPath oldS) (BasePath user))
                then mret (ErrorStrResp "permission denied" 403)
                else
                  let req := rewrite_MountPath user req in
                  if negb (GoStrings.HasPrefix (MountPath req) (BasePath user))
                  then mret (denied_under user)
                  else update req
            end
          else update req
      end
  end.

Definition denied_or_not_found : Resp :=
  ErrorStrResp "permission denied or storage not found" 403.

(** The tail shared in shape by Delete, Disable and Enable: the call of
    the op layer and its answer. *)
Definition finish (e : option error) : Resp :=
  match e with
  | Some err => ErrorResp err 500 true
  | None => SuccessResp None
  end.

Definition DeleteStorage (c : gin_Context) : M Resp :=
  match strconv_Atoi env (Query_id c) with
  | inr err => mret (ErrorResp err 400 false)
  | inl id =>
      match UserKey c with
      | None => mret Panic
      | Some user =>
          if negb (IsAdmin user) then
            oldS ← call (DbGetStorageById (uint id)) (db_GetStorageById env (uint id));
            match oldS with
            | inr _ => mret denied_or_not_found
            | inl oldS =>
                if negb (GoStrings.HasPrefix (MountPath oldS) (BasePath user))
                then mret denied_or_not_found
                else
                  e ← call (OpDeleteStorageById (uint id)) (op_DeleteStorageById env (uint id));
                  mret (finish e)
            end
          else
            e ← call (OpDeleteStorageById (uint id)) (op_DeleteStorageById env (uint id));
            mret (finish e)
      end
  end.

Definition DisableStorage (c : gin_Context) : M Resp :=
  match strconv_Atoi env (Query_id c) with
  | inr err => mret (ErrorResp err 400 false)
  | inl id =>
      match UserKey c with
      | None => mret Panic
      | Some user =>
          if negb (IsAdmin user) then
            oldS ← call (DbGetStorageById (uint id)) (db_GetStorageById env (uint id));
            match oldS with
            | inr _ => mret denied_or_not_found
            | inl oldS =>
                if negb (GoStrings.HasPrefix (MountPath oldS) (BasePath user))
                then mret denied_or_not_found
                else
                  e ← call (OpDisableStorage (uint id)) (op_DisableStorage env (uint id));
                  mret (finish e)
            end
          else
            e ← call (OpDisableStorage (uint id)) (op_DisableStorage env (uint id));
            mret (finish e)
      end
  end.

Definition EnableStorage (c : gin_Context) : M Resp :=
  match strconv_Atoi env (Query_id c) with
  | inr err => mret (ErrorResp err 400 false)
  | inl id =>
      match UserKey c with
      | None => mret Panic
      | Some user =>
          if negb (IsAdmin user) then
            oldS ← call (DbGetStorageById (uint id)) (db_GetStorageById env (uint id));
            match oldS with
            | inr _ => mret denied_or_not_found
            | inl oldS =>
                if negb (GoStrings.HasPrefix (MountPath oldS) (BasePath user))
                then mret denied_or_not_found
                else
                  e ← call (OpEnableStorage (uint id)) (op_EnableStorage env (uint id));
                  mret (finish e)
            end
          else
            e ← call (OpEnableStorage (uint id)) (op_EnableStorage env (uint id));
            mret (finish e)
      end
  end.

Definition GetStorage (c : gin_Context) : M Resp :=
  match strconv_Atoi env (Query_id c) with
  | inr err => mret (ErrorResp err 400 false)
  | inl id =>
      match UserKey c with
      | None => mret Panic
      | Some user =>
          storage ← call (DbGetStorageById (uint id)) (db_GetStorageById env (uint id));
          match storage with
          | inr err => mret (ErrorResp err 500 true)
          | inl storage =>
              if negb (IsAdmin user) &&
                 negb (GoStrings.HasPrefix (MountPath storage) (BasePath user))
              then mret (ErrorStrResp "permission denied" 403)
              else mret (SuccessResp (Some (StorageData (strip_BasePath (Some user) storage))))
          end
      end
  end.

(** *** LoadAllStorages *)

(** One turn of the loop of lines 319-336; every [continue] ends the turn. *)
Definition reload_one (storage : Storage) : M unit :=
  d ← call (OpGetStorageByMountPath (MountPath storage))
           (op_GetStorageByMountPath env (MountPath storage));
  match d with
  | inr _ => call (Log Errorf "failed get storage driver: %+v") tt
  | inl storageDriver =>
      e ← call (DriverDrop storageDriver) (Drop env storageDriver);
      match e with
      | Some _ => call (Log Errorf "failed drop storage: %+v") tt
      | None =>
          e ← call (OpLoadStorage storage) (op_LoadStorage env storage);
          match e with
          | Some _ => call (Log Errorf "failed get enabled storages: %+v") tt
          | None => call (Log Infof "success load storage: [%s], driver: [%s]") tt
          end
      end
  end.

Fixpoint reload_loop (storages : list Storage) : M unit :=
  match storages with
  | [] => mret tt
  | storage :: storages' => _ ← reload_one storage; reload_loop storages'
  end.

(** The goroutine of lines 318-338. *)
Definition reload (storages : list Storage) : M unit :=
  _ ← reload_loop storages; call ConfSendStoragesLoadedSignal tt.

Definition LoadAllStorages (c : gin_Context) : M Resp :=
  r ← call DbGetEnabledStorages (db_GetEnabledStorages env);
  match r with
  | inr err =>
      _ ← call (Log Errorf "failed get enabled storages: %+v") tt;
      mret (ErrorResp err 500 true)
  | inl storages =>
      _ ← call ConfResetStoragesLoadSignal tt;
      _ ← call (Go (trace (reload storages))) tt;
      mret (SuccessResp None)
  end.

End Registry.

(** ** The path-scope operations under the names of the specification *)

(** [ToRelative(path, root)]: the text of lines 44-48 on the path alone. *)
Definition ToRelative (path root : string) : string :=
  if GoStrings.HasPrefix path root then
    let mp := GoStrings.TrimPrefix path root in
    if String.eqb mp "" then "/" else mp
  else path.

(** [ToAbsolute(path, root)]: the text of lines 137-141 on the path alone. *)
Definition ToAbsolute (path root : string) : string :=
  if negb (GoStrings.HasPrefix path root) then GoPath.Join root path else path.


(** [IsUnderRoot] as the specification words it: [path] is [root] or lies
    below it at a segment boundary. The handlers do not use it. *)
Definition IsUnderRoot_segment (path root : string) : bool :=
  String.eqb path root || GoStrings.HasPrefix path (root +:+ "/").

(** Canonical rooted paths: [/e1/e2/.../en] with clean elements. *)
Fixpoint no_slash (e : string) : bool :=
  match e with
  | EmptyString => true
  | String c e' => negb (Ascii.eqb c GoPath.slash) && no_slash e'
  end.

Definition clean_elem (e : string) : bool :=
  negb (String.eqb e "") && negb (String.eqb e ".") &&
  negb (String.eqb e "..") && no_slash e.

(** The elements [Clean] keeps among empty and clean ones. *)
Definition kept (e : string) : bool := negb (String.eqb e "").

Fixpoint render (elems : list string) : string :=
  match elems with
  | [] => ""
  | e :: elems' => "/" +:+ e +:+ render elems'
  end.

(** Whether the record with identifier [id] loads and lies under the
    caller's [BasePath], as lines 203-204, 225-226 and 247-248 decide it. *)
Definition owned (env : Env) (user : User) (id : Z) : bool :=
  match db_GetStorageById env id with
  | inl oldS => GoStrings.HasPrefix (MountPath oldS) (BasePath user)
  | inr _ => false
  end.

(** The driver a goroutine is started for at a slot with (rewritten) mount
    path [mp], if any: lines 55-66. *)
Definition eligible (env : Env) (mp : string) : option driver_Driver :=
  if HideStorageDetailsInManagePage env then None
  else match op_GetStorageByMountPath env mp with
       | inl d => if WithDetails d then Some d else None
       | inr _ => None
       end.

(** The goroutines the first loop of [makeStorageResp] starts: slot and
    driver; its length is [workerCount] when the second loop begins. *)
Definition started (env : Env) (ctx : gin_Context) (storages : list Storage)
  : list (nat * driver_Driver) :=
  (result (dispatch env (UserKey ctx) 0 storages)).2.

(** ** Reading traces *)

(** Calls into the record store and the op layer that change a record or a
    live driver; inside [Go] bodies too. *)
Fixpoint mutates (c : Call) : bool :=
  match c with
  | OpCreateStorage _ | OpUpdateStorage _ | OpDeleteStorageById _
  | OpDisableStorage _ | OpEnableStorage _ | OpLoadStorage _
  | DriverDrop _ => true
  | Go body => existsb mutates body
  | _ => false
  end.

(** Calls of the store's and op layer's operations on records. *)
Definition is_store_call (c : Call) : bool :=
  match c with
  | DbGetStorages _ _ | DbGetStorageById _ | DbGetEnabledStorages
  | OpCreateStorage _ | OpUpdateStorage _ | OpDeleteStorageById _
  | OpDisableStorage _ | OpEnableStorage _ | OpLoadStorage _ => true
  | _ => false
  end.

Definition store_calls (t : list Call) : list Call := List.filter is_store_call t.

(** The receptions of the collection loop that write slot [i]. *)
Definition writes_slot (i : nat) (c : Call) : bool :=
  match c with
  | ChanRecv r => Nat.eqb (idx r) i
  | _ => false
  end.

Definition slot_writes (i : nat) (t : list Call) : nat :=
  length (List.filter (writes_slot i) t).

(** The slots after the receptions [ms], in the order of line 80. *)
Fixpoint deliver (ret : list StorageResp) (ms : list detailWithIndex) : list StorageResp :=
  match ms with
  | [] => ret
  | r :: ms' => deliver (alter (set_MountDetails (val r)) (idx r) ret) ms'
  end.




(** The storages a trace re-initialises and the drivers it drops, in order. *)
Fixpoint loaded (t : list Call) : list Storage :=
  match t with
  | [] => []
  | OpLoadStorage s :: t' => s :: loaded t'
  | _ :: t' => loaded t'
  end.

Fixpoint dropped (t : list Call) : list driver_Driver :=
  match t with
  | [] => []
  | DriverDrop d :: t' => d :: dropped t'
  | _ :: t' => dropped t'
  end.

(** The mount paths a trace resolves drivers for, in order. *)
Fixpoint resolved (t : list Call) : list string :=
  match t with
  | [] => []
  | OpGetStorageByMountPath mp :: t' => mp :: resolved t'
  | _ :: t' => resolved t'
  end.

(** The identifier a call of the store or of the op layer is made with. *)
Definition call_id (c : Call) : option Z :=
  match c with
  | DbGetStorageById id | OpDeleteStorageById id
  | OpDisableStorage id | OpEnableStorage id => Some id
  | _ => None
  end.

(** ** A sample deployment, for the concrete statements *)
Module Sample.

Definition tenant : User := mkUser "u1" false "/u1".
Definition admin : User := mkUser "admin" true "/".

Definition drive : Storage := mkStorage 7 "/u1/drive" "Local" false.
Definition other : Storage := mkStorage 8 "/u2/other" "Local" false.
Definition home : Storage := mkStorage 9 "/u1" "Local" false.

Definition not_found : error := errors_New "record not found".

Definition Atoi (s : string) : sum Z error :=
  if String.eqb s "7" then inl 7
  else if String.eqb s "8" then inl 8
  else if String.eqb s "9" then inl 9
  else if String.eqb s "10" then inl 10
  else inr (errors_New "strconv.Atoi: invalid syntax").

Definition by_id (id : Z) : sum Storage error :=
  if Z.eqb id 7 then inl drive
  else if Z.eqb id 8 then inl other
  else if Z.eqb id 9 then inl home
  else inr not_found.

Definition details : StorageDetails := mkDetails "Local" 100 40.

(** Drivers are live for the tenant-relative paths too, so that the
    resolution of line 58 succeeds on a rewritten path. *)
Definition by_mount (mp : string) : sum driver_Driver error :=
  if String.eqb mp "/u1/drive" || String.eqb mp "/drive" then inl (mkDriver drive true)
  else if String.eqb mp "/u2/other" then inl (mkDriver other true)
  else if String.eqb mp "/u1" || String.eqb mp "/" then inl (mkDriver home false)
  else inr (errors_New "storage not found").

Definition make_env (hide : bool) (load : Z -> sum Storage error) : Env := {|
  strconv_Atoi := Atoi;
  PageReq_Validate := fun r => r;
  HideStorageDetailsInManagePage := hide;
  db_GetStorages := fun _ _ => inl ([drive; other; home], 3);
  db_GetStorageById := load;
  db_GetEnabledStorages := inl [drive; other; home];
  op_CreateStorage := fun _ => (11, None);
  op_UpdateStorage := fun _ => None;
  op_DeleteStorageById := fun _ => None;
  op_DisableStorage := fun _ => None;
  op_EnableStorage := fun _ => None;
  op_GetStorageByMountPath := by_mount;
  op_GetStorageDetails := fun d =>
    if Z.eqb (ID (dri_GetStorage d)) 7 then (Some details, None)
    else (None, Some errs_StorageNotInit);
  op_LoadStorage := fun _ => None;
  Drop := fun d =>
    if Z.eqb (ID (dri_GetStorage d)) 8 then Some (errors_New "drop failed") else None
|}.

Definition env : Env := make_env false by_id.

(** The same deployment with a record 10 outside the tenant's subtree. *)
Definition env10 : Env :=
  make_env false (fun id => if Z.eqb id 10 then inl (mkStorage 10 "/u2/b" "Local" false)
                            else by_id id).

(** The same deployment with the details hidden. *)
Definition env_hidden : Env := make_env true by_id.

(** Every goroutine reports after 2000 ms of its own work, one after the
    other: slot [i] at [2000 * (i + 1)]. *)
Definition sched : Sched := {|
  arrival := fun i => Some (2000 * (i + 1))%nat;
  tie_recv := true
|}.

Definition ctx (u : User) (id : string) (req : Storage) : gin_Context := {|
  UserKey := Some u;
  Query_id := id;
  ShouldBind_Storage := inl req;
  ShouldBind_PageReq := inl (mkPageReq 1 30)
|}.

End Sample.

(** ** Further deployments, for edge cases *)
Module Edge.

(** The sample deployment with an [Atoi] that also reads "-1". *)
Definition env_signed : Env := {|
  strconv_Atoi := fun s => if String.eqb s "-1" then inl (-1) else Sample.Atoi s;
  PageReq_Validate := fun r => r;
  HideStorageDetailsInManagePage := false;
  db_GetStorages := fun _ _ => inl ([Sample.drive; Sample.other; Sample.home], 3);
  db_GetStorageById := Sample.by_id;
  db_GetEnabledStorages := inl [Sample.drive; Sample.other; Sample.home];
  op_CreateStorage := fun _ => (11, None);
  op_UpdateStorage := fun _ => None;
  op_DeleteStorageById := fun _ => None;
  op_DisableStorage := fun _ => None;
  op_EnableStorage := fun _ => None;
  op_GetStorageByMountPath := Sample.by_mount;
  op_GetStorageDetails := fun _ => (Some Sample.details, None);
  op_LoadStorage := fun _ => None;
  Drop := fun _ => None
|}.

(** Every goroutine reports within the first second. *)
Definition sched_fast : Sched := {|
  arrival := fun i => Some (100 * (i + 1))%nat;
  tie_recv := false
|}.

(** The first goroutine reports after one second, no other ever does. *)
Definition sched_one : Sched := {|
  arrival := fun i => if Nat.eqb i 0 then Some 1000%nat else None;
  tie_recv := false
|}.

End Edge.
(** ** The library functions on the inputs of Go's own tests and of the handlers *)

Example Clean_1 : GoPath.Clean "abc//def//ghi" = "abc/def/ghi". Proof. reflexivity. Qed.
Example Clean_2 : GoPath.Clean "/.." = "/". Proof. reflexivity. Qed.
Example Clean_3 : GoPath.Clean "../.." = "../..". Proof. reflexivity. Qed.
Example Clean_4 : GoPath.Clean "abc/def/../../.." = "..". Proof. reflexivity. Qed.
Example Clean_5 : GoPath.Clean "abc/./../def" = "def". Proof. reflexivity. Qed.
Example Clean_6 : GoPath.Clean "" = ".". Proof. reflexivity. Qed.
Example Clean_7 : GoPath.Clean "/abc/def/../../.." = "/". Proof. reflexivity. Qed.
Example Clean_8 : GoPath.Clean "abc/.." = ".". Proof. reflexivity. Qed.
Example Clean_9 : GoPath.Clean "/u1//drive/" = "/u1/drive". Proof. reflexivity. Qed.
Example Clean_10 : GoPath.Clean "abc/../../././../def" = "../../def". Proof. reflexivity. Qed.
Example Join_1 : GoPath.Join "/u1" "/drive" = "/u1/drive". Proof. reflexivity. Qed.
Example Join_2 : GoPath.Join "/u1" "../x" = "/x". Proof. reflexivity. Qed.
Example Join_3 : GoPath.Join "" "" = "". Proof. reflexivity. Qed.
Example Join_4 : GoPath.Join "a" "" = "a". Proof. reflexivity. Qed.
Example HasPrefix_1 : GoStrings.HasPrefix "/abcd" "/ab" = true. Proof. reflexivity. Qed.
Example TrimPrefix_1 : GoStrings.TrimPrefix "/u1/drive" "/u1" = "/drive". Proof. reflexivity. Qed.

(** ** Facts about prefixes *)
Section PrefixFacts.

Import GoStrings.

Lemma HasPrefix_app (r t : string) : HasPrefix (r +:+ t) r = true.
Proof.
  induction r as [|a r IH]; simpl; [reflexivity|].
  rewrite Ascii.eqb_refl. exact IH.
Qed.

Lemma HasPrefix_inv (p r : string) :
  HasPrefix p r = true -> p = r +:+ drop (String.length r) p.
Proof.
  revert p. induction r as [|a r IH]; intros p H; simpl in *.
  - reflexivity.
  - destruct p as [|b p]; [discriminate|].
    apply andb_true_iff in H as [Hab H].
    apply Ascii.eqb_eq in Hab. subst b. simpl. f_equal. apply IH, H.
Qed.

Lemma HasPrefix_iff (p r : string) :
  HasPrefix p r = true <-> exists t, p = r +:+ t.
Proof.
  split.
  - intros H. eexists. apply HasPrefix_inv, H.
  - intros [t ->]. apply HasPrefix_app.
Qed.

Lemma drop_app (r t : string) : drop (String.length r) (r +:+ t) = t.
Proof. induction r as [|a r IH]; simpl; [destruct t; reflexivity | exact IH]. Qed.

Lemma TrimPrefix_app (r t : string) : TrimPrefix (r +:+ t) r = t.
Proof. unfold TrimPrefix. rewrite HasPrefix_app. apply drop_app. Qed.

Lemma HasPrefix_refl (r : string) : HasPrefix r r = true.
Proof. induction r; simpl; [reflexivity|]. now rewrite Ascii.eqb_refl. Qed.


Lemma append_empty_r (s : string) : s +:+ "" = s.
Proof. induction s; simpl; congruence. Qed.

Lemma append_assoc (a b c : string) : (a +:+ b) +:+ c = a +:+ (b +:+ c).
Proof. induction a; simpl; congruence. Qed.

Lemma append_length (a b : string) :
  String.length (a +:+ b) = (String.length a + String.length b)%nat.
Proof. induction a; simpl; congruence. Qed.

Lemma TrimPrefix_self (r : string) : TrimPrefix r r = "".
Proof. rewrite <- (append_empty_r r) at 1. apply TrimPrefix_app. Qed.

End PrefixFacts.

(** ** Facts about [path.Clean] and [path.Join] on canonical paths *)
Section PathFacts.

Import GoStrings GoPath.

Lemma split_not_nil (s : string) : split s <> [].
Proof.
  induction s as [|c s IH]; simpl; [discriminate|].
  destruct (Ascii.eqb c slash); [discriminate|].
  destruct (split s); [contradiction | discriminate].
Qed.

Lemma split_app_slash (a b : string) :
  split (a +:+ String slash b) = split a ++ split b.
Proof.
  induction a as [|c a IH]; simpl; [reflexivity|].
  destruct (Ascii.eqb c slash); rewrite IH; [reflexivity|].
  pose proof (split_not_nil a) as Hne.
  destruct (split a); [contradiction | reflexivity].
Qed.

Lemma split_no_slash (e : string) : no_slash e = true -> split e = [e].
Proof.
  induction e as [|c e IH]; simpl; [reflexivity|].
  intros [Hc He]%andb_true_iff. apply negb_true_iff in Hc.
  rewrite Hc, (IH He). reflexivity.
Qed.

Lemma clean_elem_inv (e : string) :
  clean_elem e = true ->
  String.eqb e "" = false /\ String.eqb e "." = false /\
  String.eqb e ".." = false /\ no_slash e = true.
Proof.
  unfold clean_elem. intros H.
  apply andb_true_iff in H as [H H4]. apply andb_true_iff in H as [H H3].
  apply andb_true_iff in H as [H1 H2].
  apply negb_true_iff in H1, H2, H3. auto.
Qed.

Lemma clean_elem_no_slash (e : string) : clean_elem e = true -> no_slash e = true.
Proof. intros H. apply clean_elem_inv in H. tauto. Qed.

Lemma render_cons (e : string) (l : list string) :
  render (e :: l) = String slash (e +:+ render l).
Proof. reflexivity. Qed.

Lemma split_elem_render (l : list string) (e : string) :
  forallb clean_elem (e :: l) = true -> split (e +:+ render l) = e :: l.
Proof.
  revert e. induction l as [|e' l IH]; intros e H.
  - simpl in H. rewrite andb_true_r in H. simpl. rewrite append_empty_r.
    apply split_no_slash, clean_elem_no_slash, H.
  - change (forallb clean_elem (e :: e' :: l))
      with (clean_elem e && forallb clean_elem (e' :: l)) in H.
    apply andb_true_iff in H as [He H].
    rewrite render_cons, split_app_slash, (IH e' H).
    rewrite (split_no_slash e (clean_elem_no_slash e He)). reflexivity.
Qed.

Lemma split_render (l : list string) :
  forallb clean_elem l = true -> split (render l) = "" :: l.
Proof.
  destruct l as [|e l]; intros H; [reflexivity|].
  rewrite render_cons. change (String slash ?x) with ("" +:+ String slash x).
  rewrite split_app_slash, (split_elem_render l e H). reflexivity.
Qed.

Lemma step_clean (b : bool) (out : list string) (e : string) :
  clean_elem e = true -> step b out e = e :: out.
Proof.
  intros (H1 & H2 & H3 & _)%clean_elem_inv. unfold step.
  now rewrite H1, H2, H3.
Qed.

(** Empty elements are skipped, clean ones are pushed. *)
Lemma fold_step_clean (b : bool) (l out : list string) :
  forallb (fun e => String.eqb e "" || clean_elem e) l = true ->
  fold_left (step b) l out = rev (List.filter kept l) ++ out.
Proof.
  revert out. induction l as [|e l IH]; intros out H; [reflexivity|].
  simpl in H. apply andb_true_iff in H as [He H].
  simpl. unfold kept at 1. destruct (String.eqb_spec e "") as [->|Hne]; simpl.
  - apply IH, H.
  - simpl in He. rewrite (step_clean b out e He), (IH _ H).
    now rewrite <- List.app_assoc.
Qed.

Lemma render_app (a b : list string) : render (a ++ b) = render a +:+ render b.
Proof.
  induction a as [|e a IH]; [reflexivity|].
  simpl. rewrite IH, append_assoc. reflexivity.
Qed.

Lemma join_elems_render (e : string) (l : list string) :
  "/" +:+ join_elems (e :: l) = render (e :: l).
Proof.
  revert e. induction l as [|e' l IH]; intros e.
  - simpl. now rewrite append_empty_r.
  - change (join_elems (e :: e' :: l)) with (e +:+ "/" +:+ join_elems (e' :: l)).
    rewrite (render_cons e), <- IH. reflexivity.
Qed.

Lemma filter_kept_clean (l : list string) :
  forallb clean_elem l = true -> List.filter kept l = l.
Proof.
  induction l as [|e l IH]; [reflexivity|]. simpl.
  intros [He H]%andb_true_iff. rewrite (IH H).
  apply clean_elem_inv in He as (He & _). unfold kept. now rewrite He.
Qed.

Lemma forallb_weaken (l : list string) :
  forallb clean_elem l = true ->
  forallb (fun e => String.eqb e "" || clean_elem e) l = true.
Proof.
  induction l as [|e l IH]; [reflexivity|]. simpl.
  intros [He H]%andb_true_iff. rewrite He, (IH H), orb_true_r. reflexivity.
Qed.

(** [Clean] of a rooted path whose elements are empty or clean. *)
Lemma Clean_rooted (p : string) (e : string) (l : list string) :
  rooted p = true ->
  forallb (fun e => String.eqb e "" || clean_elem e) (split p) = true ->
  List.filter kept (split p) = e :: l ->
  Clean p = render (e :: l).
Proof.
  intros Hroot Hall Hk. unfold Clean, elements.
  destruct (String.eqb_spec p "") as [->|_]; [discriminate|].
  rewrite Hroot, (fold_step_clean true _ [] Hall), List.app_nil_r, rev_involutive, Hk.
  apply join_elems_render.
Qed.

Lemma filter_kept_app (a b : list string) :
  List.filter kept (a ++ b) = List.filter kept a ++ List.filter kept b.
Proof. induction a as [|x a IH]; simpl; [reflexivity|]. destruct (kept x); simpl; now rewrite IH. Qed.

Lemma split_render_all (l : list string) :
  forallb clean_elem l = true ->
  forallb (fun e => String.eqb e "" || clean_elem e) (split (render l)) = true /\
  List.filter kept (split (render l)) = l.
Proof.
  intros H. rewrite (split_render l H). split.
  - simpl. apply forallb_weaken, H.
  - simpl. unfold kept at 1. simpl. apply filter_kept_clean, H.
Qed.

(** Joining a canonical root and a canonical rooted path concatenates them. *)
Lemma Join_canonical (e : string) (rs ss : list string) :
  forallb clean_elem (e :: rs) = true -> forallb clean_elem ss = true ->
  GoPath.Join (render (e :: rs)) (render ss) = render ((e :: rs) ++ ss).
Proof.
  intros Hr Hs. unfold Join.
  change (String.eqb (render (e :: rs)) "") with false. cbv iota. simpl andb. cbv iota.
  destruct (split_render_all _ Hr) as [Ar Kr].
  destruct ss as [|s ss].
  - change (String.eqb (render []) "") with true. cbv iota.
    rewrite List.app_nil_r. apply Clean_rooted; [reflexivity | exact Ar | exact Kr].
  - change (String.eqb (render (s :: ss)) "") with false. cbv iota.
    destruct (split_render_all _ Hs) as [As Ks].
    change ("/" +:+ render (s :: ss)) with (String slash (render (s :: ss))).
    apply Clean_rooted.
    + reflexivity.
    + rewrite split_app_slash, forallb_app, Ar, As. reflexivity.
    + rewrite split_app_slash, filter_kept_app, Kr, Ks. reflexivity.
Qed.


End PathFacts.

(** ** The registry handlers for a non-admin caller *)

(** Unfold the trace monad and compute. *)
Ltac run := unfold mbind, M_bind, mret, M_ret, call; simpl.

Section RegistryFacts.

Context (env : Env) (c : gin_Context) (user : User).
Hypothesis Huser : UserKey c = Some user.
Hypothesis Hnonadmin : IsAdmin user = false.

Lemma CreateStorage_nonadmin (req : Storage) :
  ShouldBind_Storage c = inl req ->
  CreateStorage env c =
    (_ ← call (Log Infof "Debug CreateStorage: User=%s IsAdmin=%v MountPath=%s BasePath=%s") tt;
     if GoStrings.HasPrefix (MountPath (rewrite_MountPath user req)) (BasePath user)
     then create env (rewrite_MountPath user req)
     else mret (denied_under user)).
Proof.
  intros Hreq. unfold CreateStorage. rewrite Hreq, Huser, Hnonadmin. simpl negb. cbv iota.
  run. destruct (GoStrings.HasPrefix (MountPath (rewrite_MountPath user req)) (BasePath user));
    reflexivity.
Qed.

Lemma UpdateStorage_nonadmin (req : Storage) :
  ShouldBind_Storage c = inl req ->
  UpdateStorage env c =
    (oldS ← call (DbGetStorageById (ID req)) (db_GetStorageById env (ID req));
     match oldS with
     | inr err => mret (ErrorResp err 500 false)
     | inl oldS =>
         if GoStrings.HasPrefix (MountPath oldS) (BasePath user) then
           if GoStrings.HasPrefix (MountPath (rewrite_MountPath user req)) (BasePath user)
           then update env (rewrite_MountPath user req)
           else mret (denied_under user)
         else mret (ErrorStrResp "permission denied" 403)
     end).
Proof.
  intros Hreq. unfold UpdateStorage. rewrite Hreq, Huser, Hnonadmin. simpl negb. cbv iota.
  run. destruct (db_GetStorageById env (ID req)) as [oldS|err]; [|reflexivity].
  destruct (GoStrings.HasPrefix (MountPath oldS) (BasePath user)); [|reflexivity].
  simpl. destruct (GoStrings.HasPrefix (MountPath (rewrite_MountPath user req)) (BasePath user));
    reflexivity.
Qed.

Lemma DeleteStorage_nonadmin (id : Z) :
  strconv_Atoi env (Query_id c) = inl id ->
  DeleteStorage env c =
    if owned env user (uint id)
    then (finish (op_DeleteStorageById env (uint id)),
          [DbGetStorageById (uint id); OpDeleteStorageById (uint id)])
    else (denied_or_not_found, [DbGetStorageById (uint id)]).
Proof.
  intros Hid. unfold DeleteStorage, owned. rewrite Hid, Huser, Hnonadmin. simpl negb. cbv iota.
  run. destruct (db_GetStorageById env (uint id)) as [oldS|err]; [|reflexivity].
  destruct (GoStrings.HasPrefix (MountPath oldS) (BasePath user)); reflexivity.
Qed.

Lemma DisableStorage_nonadmin (id : Z) :
  strconv_Atoi env (Query_id c) = inl id ->
  DisableStorage env c =
    if owned env user (uint id)
    then (finish (op_DisableStorage env (uint id)),
          [DbGetStorageById (uint id); OpDisableStorage (uint id)])
    else (denied_or_not_found, [DbGetStorageById (uint id)]).
Proof.
  intros Hid. unfold DisableStorage, owned. rewrite Hid, Huser, Hnonadmin. simpl negb. cbv iota.
  run. destruct (db_GetStorageById env (uint id)) as [oldS|err]; [|reflexivity].
  destruct (GoStrings.HasPrefix (MountPath oldS) (BasePath user)); reflexivity.
Qed.

Lemma EnableStorage_nonadmin (id : Z) :
  strconv_Atoi env (Query_id c) = inl id ->
  EnableStorage env c =
    if owned env user (uint id)
    then (finish (op_EnableStorage env (uint id)),
          [DbGetStorageById (uint id); OpEnableStorage (uint id)])
    else (denied_or_not_found, [DbGetStorageById (uint id)]).
Proof.
  intros Hid. unfold EnableStorage, owned. rewrite Hid, Huser, Hnonadmin. simpl negb. cbv iota.
  run. destruct (db_GetStorageById env (uint id)) as [oldS|err]; [|reflexivity].
  destruct (GoStrings.HasPrefix (MountPath oldS) (BasePath user)); reflexivity.
Qed.

Lemma GetStorage_nonadmin (id : Z) :
  strconv_Atoi env (Query_id c) = inl id ->
  GetStorage env c =
    match db_GetStorageById env (uint id) with
    | inr err => (ErrorResp err 500 true, [DbGetStorageById (uint id)])
    | inl storage =>
        if GoStrings.HasPrefix (MountPath storage) (BasePath user)
        then (SuccessResp (Some (StorageData
                (set_MountPath storage (ToRelative (MountPath storage) (BasePath user))))),
              [DbGetStorageById (uint id)])
        else (ErrorStrResp "permission denied" 403, [DbGetStorageById (uint id)])
    end.
Proof.
  intros Hid. unfold GetStorage. rewrite Hid, Huser, Hnonadmin. simpl negb.
  run. destruct (db_GetStorageById env (uint id)) as [storage|err]; [|reflexivity].
  unfold strip_BasePath, ToRelative. rewrite Hnonadmin. simpl negb.
  destruct (GoStrings.HasPrefix (MountPath storage) (BasePath user)); reflexivity.
Qed.

End RegistryFacts.

Lemma finish_not_denied (e : option error) (str : string) (code : Z) :
  finish e <> ErrorStrResp str code.
Proof. destruct e; discriminate. Qed.

Lemma owned_false_iff (env : Env) (user : User) (id : Z) :
  owned env user id = false <->
  (exists err, db_GetStorageById env id = inr err) \/
  (exists oldS, db_GetStorageById env id = inl oldS /\
                GoStrings.HasPrefix (MountPath oldS) (BasePath user) = false).
Proof.
  unfold owned. destruct (db_GetStorageById env id) as [oldS|err]; split.
  - intros H. right. eauto.
  - intros [[err H]|[s [H H']]]; [discriminate|]. now inversion H; subst.
  - intros _. left. eauto.
  - reflexivity.
Qed.

Lemma owned_true_iff (env : Env) (user : User) (id : Z) :
  owned env user id = true <->
  exists oldS, db_GetStorageById env id = inl oldS /\
               GoStrings.HasPrefix (MountPath oldS) (BasePath user) = true.
Proof.
  unfold owned. destruct (db_GetStorageById env id) as [oldS|err]; split.
  - eauto.
  - intros [s [H H']]. now inversion H; subst.
  - discriminate.
  - intros [s [H _]]. discriminate.
Qed.

(** ** Delete, Disable, Enable *)

(** C6. For a non-admin caller and a parsed id [n]: when the record does not
    load, or loads with a [MountPath] that does not start with the caller's
    [BasePath], each of Delete, Disable and Enable answers 403 with the same
    message "permission denied or storage not found" and calls nothing but
    the load; otherwise the operation of the op layer is called on the id
    and its answer decides the response. *)
Theorem delete_disable_enable_combined_denial
    (env : Env) (c : gin_Context) (user : User) (n : Z)
    (Hid : strconv_Atoi env (Query_id c) = inl n)
    (Huser : UserKey c = Some user)
    (Hnonadmin : IsAdmin user = false) :
  (((exists err, db_GetStorageById env (uint n) = inr err) \/
    (exists oldS, db_GetStorageById env (uint n) = inl oldS /\
                  GoStrings.HasPrefix (MountPath oldS) (BasePath user) = false)) ->
   DeleteStorage env c =
     (ErrorStrResp "permission denied or storage not found" 403, [DbGetStorageById (uint n)]) /\
   DisableStorage env c =
     (ErrorStrResp "permission denied or storage not found" 403, [DbGetStorageById (uint n)]) /\
   EnableStorage env c =
     (ErrorStrResp "permission denied or storage not found" 403, [DbGetStorageById (uint n)]))
  /\
  ((exists oldS, db_GetStorageById env (uint n) = inl oldS /\
                 GoStrings.HasPrefix (MountPath oldS) (BasePath user) = true) ->
   DeleteStorage env c =
     (finish (op_DeleteStorageById env (uint n)),
      [DbGetStorageById (uint n); OpDeleteStorageById (uint n)]) /\
   DisableStorage env c =
     (finish (op_DisableStorage env (uint n)),
      [DbGetStorageById (uint n); OpDisableStorage (uint n)]) /\
   EnableStorage env c =
     (finish (op_EnableStorage env (uint n)),
      [DbGetStorageById (uint n); OpEnableStorage (uint n)])).
Proof.
  rewrite (DeleteStorage_nonadmin env c user Huser Hnonadmin n Hid).
  rewrite (DisableStorage_nonadmin env c user Huser Hnonadmin n Hid).
  rewrite (EnableStorage_nonadmin env c user Huser Hnonadmin n Hid).
  split.
  - intros H%owned_false_iff. rewrite H. auto.
  - intros H%owned_true_iff. rewrite H. auto.
Qed.

Lemma delete_disable_enable_combined_denial_witness :
  (* id 10 does not load, id 8 lies outside /u1, id 7 is the tenant's own *)
  DeleteStorage Sample.env (Sample.ctx Sample.tenant "10" Sample.drive) =
    (ErrorStrResp "permission denied or storage not found" 403, [DbGetStorageById 10]) /\
  EnableStorage Sample.env (Sample.ctx Sample.tenant "8" Sample.drive) =
    (ErrorStrResp "permission denied or storage not found" 403, [DbGetStorageById 8]) /\
  DisableStorage Sample.env (Sample.ctx Sample.tenant "7" Sample.drive) =
    (SuccessResp None, [DbGetStorageById 7; OpDisableStorage 7]).
Proof.
  split; [|split].
  - apply (delete_disable_enable_combined_denial Sample.env
             (Sample.ctx Sample.tenant "10" Sample.drive) Sample.tenant 10
             eq_refl eq_refl eq_refl).
    left. exists Sample.not_found. reflexivity.
  - apply (delete_disable_enable_combined_denial Sample.env
             (Sample.ctx Sample.tenant "8" Sample.drive) Sample.tenant 8
             eq_refl eq_refl eq_refl).
    right. exists Sample.other. split; reflexivity.
  - apply (delete_disable_enable_combined_denial Sample.env
             (Sample.ctx Sample.tenant "7" Sample.drive) Sample.tenant 7
             eq_refl eq_refl eq_refl).
    exists Sample.drive. split; reflexivity.
Defined.

(** ** Get *)

(** C10. [GetStorage] loads the record before any permission check: for
    every caller, a failed load is answered with the store's error and
    status 500; a record that loads but lies outside a non-admin caller's
    [BasePath] is answered with 403 "permission denied". The two answers
    differ, so through Get a non-admin caller tells a missing id from an
    out-of-scope one, whereas Delete, Disable and Enable answer both cases
    alike. *)
Theorem GetStorage_loads_before_permission_check
    (env : Env) (c : gin_Context) (user : User) (id : Z)
    (Hid : strconv_Atoi env (Query_id c) = inl id)
    (Huser : UserKey c = Some user) :
  (forall err, db_GetStorageById env (uint id) = inr err ->
     GetStorage env c = (ErrorResp err 500 true, [DbGetStorageById (uint id)])) /\
  (forall storage, db_GetStorageById env (uint id) = inl storage ->
     IsAdmin user = false ->
     GoStrings.HasPrefix (MountPath storage) (BasePath user) = false ->
     GetStorage env c = (ErrorStrResp "permission denied" 403, [DbGetStorageById (uint id)])) /\
  (forall env' : Env,
     strconv_Atoi env' (Query_id c) = inl id ->
     IsAdmin user = false ->
     (exists err, db_GetStorageById env (uint id) = inr err) ->
     (exists storage, db_GetStorageById env' (uint id) = inl storage /\
        GoStrings.HasPrefix (MountPath storage) (BasePath user) = false) ->
     result (GetStorage env c) <> result (GetStorage env' c) /\
     result (DeleteStorage env c) = result (DeleteStorage env' c) /\
     result (DisableStorage env c) = result (DisableStorage env' c) /\
     result (EnableStorage env c) = result (EnableStorage env' c)).
Proof.
  split; [|split].
  - intros err Hdb. unfold GetStorage. rewrite Hid, Huser. run. now rewrite Hdb.
  - intros storage Hdb Hna Hout.
    rewrite (GetStorage_nonadmin env c user Huser Hna id Hid), Hdb, Hout. reflexivity.
  - intros env' Hid' Hna [err Hmiss] [storage [Hload Hout]].
    rewrite (GetStorage_nonadmin env c user Huser Hna id Hid), Hmiss.
    rewrite (GetStorage_nonadmin env' c user Huser Hna id Hid'), Hload, Hout.
    rewrite (DeleteStorage_nonadmin env c user Huser Hna id Hid).
    rewrite (DeleteStorage_nonadmin env' c user Huser Hna id Hid').
    rewrite (DisableStorage_nonadmin env c user Huser Hna id Hid).
    rewrite (DisableStorage_nonadmin env' c user Huser Hna id Hid').
    rewrite (EnableStorage_nonadmin env c user Huser Hna id Hid).
    rewrite (EnableStorage_nonadmin env' c user Huser Hna id Hid').
    assert (H1 : owned env user (uint id) = false)
      by (apply owned_false_iff; left; eauto).
    assert (H2 : owned env' user (uint id) = false)
      by (apply owned_false_iff; right; eauto).
    rewrite H1, H2. simpl. repeat split; [discriminate].
Qed.

Lemma GetStorage_loads_before_permission_check_witness :
  GetStorage Sample.env (Sample.ctx Sample.tenant "10" Sample.drive) =
    (ErrorResp Sample.not_found 500 true, [DbGetStorageById 10]) /\
  GetStorage Sample.env (Sample.ctx Sample.tenant "8" Sample.drive) =
    (ErrorStrResp "permission denied" 403, [DbGetStorageById 8]) /\
  GetStorage Sample.env (Sample.ctx Sample.admin "10" Sample.drive) =
    (ErrorResp Sample.not_found 500 true, [DbGetStorageById 10]) /\
  (* record 10 missing in one deployment, out of scope in the other *)
  (result (GetStorage Sample.env (Sample.ctx Sample.tenant "10" Sample.drive)) <>
   result (GetStorage Sample.env10 (Sample.ctx Sample.tenant "10" Sample.drive)) /\
   result (DeleteStorage Sample.env (Sample.ctx Sample.tenant "10" Sample.drive)) =
   result (DeleteStorage Sample.env10 (Sample.ctx Sample.tenant "10" Sample.drive)) /\
   result (DisableStorage Sample.env (Sample.ctx Sample.tenant "10" Sample.drive)) =
   result (DisableStorage Sample.env10 (Sample.ctx Sample.tenant "10" Sample.drive)) /\
   result (EnableStorage Sample.env (Sample.ctx Sample.tenant "10" Sample.drive)) =
   result (EnableStorage Sample.env10 (Sample.ctx Sample.tenant "10" Sample.drive))).
Proof.
  split; [|split; [|split]].
  - apply (GetStorage_loads_before_permission_check Sample.env
             (Sample.ctx Sample.tenant "10" Sample.drive) Sample.tenant 10 eq_refl eq_refl).
    reflexivity.
  - apply (proj1 (proj2 (GetStorage_loads_before_permission_check Sample.env
             (Sample.ctx Sample.tenant "8" Sample.drive) Sample.tenant 8 eq_refl eq_refl))
             Sample.other); reflexivity.
  - apply (GetStorage_loads_before_permission_check Sample.env
             (Sample.ctx Sample.admin "10" Sample.drive) Sample.admin 10 eq_refl eq_refl).
    reflexivity.
  - apply (proj2 (proj2 (GetStorage_loads_before_permission_check Sample.env
             (Sample.ctx Sample.tenant "10" Sample.drive) Sample.tenant 10 eq_refl eq_refl))
             Sample.env10 eq_refl eq_refl).
    + exists Sample.not_found. reflexivity.
    + eexists. split; reflexivity.
Defined.

(** ** Create and Update *)

Lemma create_result (env : Env) (req : Storage) :
  result (create env req) =
    match (op_CreateStorage env req).2 with
    | Some err => ErrorWithDataResp err 500 (H_id (op_CreateStorage env req).1) true
    | None => SuccessResp (Some (H_id (op_CreateStorage env req).1))
    end.
Proof. unfold create. run. destruct (op_CreateStorage env req) as [id [err|]]; reflexivity. Qed.

Lemma create_store_calls (env : Env) (req : Storage) :
  store_calls (trace (create env req)) = [OpCreateStorage req].
Proof. unfold create. run. destruct (op_CreateStorage env req) as [id [err|]]; reflexivity. Qed.

Lemma create_not_denied (env : Env) (req : Storage) (str : string) (code : Z) :
  result (create env req) <> ErrorStrResp str code.
Proof. rewrite create_result. destruct (op_CreateStorage env req).2; discriminate. Qed.

Lemma update_eq (env : Env) (req : Storage) :
  update env req = (finish (op_UpdateStorage env req), [OpUpdateStorage req]).
Proof. unfold update. run. destruct (op_UpdateStorage env req); reflexivity. Qed.

Lemma rewrite_MountPath_ToAbsolute (user : User) (req : Storage) :
  MountPath (rewrite_MountPath user req) = ToAbsolute (MountPath req) (BasePath user).
Proof.
  unfold rewrite_MountPath, ToAbsolute.
  destruct (GoStrings.HasPrefix (MountPath req) (BasePath user)); reflexivity.
Qed.

(** C4. For a non-admin Create: a requested [MountPath] that does not start
    with [BasePath] is replaced by [path.Join(BasePath, MountPath)]; when
    the path after that still does not start with [BasePath] the answer is
    403 and the store is not called; otherwise the store's create is called
    with the rewritten record, and the answer carries the id it returned:
    success, or 500 with the error and the id. With [BasePath = "/u1"] and
    [MountPath = "/drive"] the record handed to the store has
    [MountPath = "/u1/drive"]. *)
Theorem CreateStorage_rewrites_then_checks
    (env : Env) (c : gin_Context) (user : User) (req : Storage)
    (Hreq : ShouldBind_Storage c = inl req)
    (Huser : UserKey c = Some user)
    (Hnonadmin : IsAdmin user = false) :
  let req' := rewrite_MountPath user req in
  req' = (if GoStrings.HasPrefix (MountPath req) (BasePath user) then req
          else set_MountPath req (GoPath.Join (BasePath user) (MountPath req))) /\
  (GoStrings.HasPrefix (MountPath req') (BasePath user) = false ->
     result (CreateStorage env c) =
       ErrorStrResp ("permission denied: you can only mount under " +:+ BasePath user) 403 /\
     store_calls (trace (CreateStorage env c)) = []) /\
  (GoStrings.HasPrefix (MountPath req') (BasePath user) = true ->
     store_calls (trace (CreateStorage env c)) = [OpCreateStorage req'] /\
     result (CreateStorage env c) =
       match (op_CreateStorage env req').2 with
       | Some err => ErrorWithDataResp err 500 (H_id (op_CreateStorage env req').1) true
       | None => SuccessResp (Some (H_id (op_CreateStorage env req').1))
       end) /\
  (BasePath user = "/u1" -> MountPath req = "/drive" ->
     store_calls (trace (CreateStorage env c)) =
       [OpCreateStorage (set_MountPath req "/u1/drive")]).
Proof.
  intros req'.
  assert (Hrun : forall b, GoStrings.HasPrefix (MountPath req') (BasePath user) = b ->
            result (CreateStorage env c) =
              (if b then result (create env req') else denied_under user) /\
            store_calls (trace (CreateStorage env c)) =
              (if b then [OpCreateStorage req'] else [])).
  { intros b Hb. rewrite (CreateStorage_nonadmin env c user Huser Hnonadmin req Hreq).
    fold req'. rewrite Hb. destruct b.
    - split; [reflexivity|]. run. apply (create_store_calls env req').
    - split; reflexivity. }
  split; [|split; [|split]].
  - subst req'. unfold rewrite_MountPath.
    destruct (GoStrings.HasPrefix (MountPath req) (BasePath user)); reflexivity.
  - intros Hb. apply (Hrun false Hb).
  - intros Hb. destruct (Hrun true Hb) as [Hres Htr]. split; [exact Htr|].
    rewrite Hres. apply create_result.
  - intros Hbase Hmp.
    assert (Hreq' : req' = set_MountPath req "/u1/drive")
      by (subst req'; unfold rewrite_MountPath; rewrite Hbase, Hmp; reflexivity).
    assert (Hb : GoStrings.HasPrefix (MountPath req') (BasePath user) = true)
      by (rewrite Hreq', Hbase; reflexivity).
    destruct (Hrun true Hb) as [_ Htr]. rewrite Htr, Hreq'. reflexivity.
Qed.

Lemma CreateStorage_rewrites_then_checks_witness :
  (* "/drive" under "/u1" is stored as "/u1/drive"; "../x" joins to "/x" and is refused *)
  CreateStorage Sample.env
      (Sample.ctx Sample.tenant "" (mkStorage 0 "/drive" "Local" false)) =
    (SuccessResp (Some (H_id 11)),
     [Log Infof "Debug CreateStorage: User=%s IsAdmin=%v MountPath=%s BasePath=%s";
      OpCreateStorage (mkStorage 0 "/u1/drive" "Local" false)]) /\
  store_calls (trace (CreateStorage Sample.env
      (Sample.ctx Sample.tenant "" (mkStorage 0 "/drive" "Local" false)))) =
    [OpCreateStorage (mkStorage 0 "/u1/drive" "Local" false)] /\
  (result (CreateStorage Sample.env
      (Sample.ctx Sample.tenant "" (mkStorage 0 "../x" "Local" false))) =
    ErrorStrResp "permission denied: you can only mount under /u1" 403 /\
   store_calls (trace (CreateStorage Sample.env
      (Sample.ctx Sample.tenant "" (mkStorage 0 "../x" "Local" false)))) = []).
Proof.
  split; [reflexivity|]. split.
  - apply (CreateStorage_rewrites_then_checks Sample.env
             (Sample.ctx Sample.tenant "" (mkStorage 0 "/drive" "Local" false))
             Sample.tenant (mkStorage 0 "/drive" "Local" false)
             eq_refl eq_refl eq_refl); reflexivity.
  - apply (CreateStorage_rewrites_then_checks Sample.env
             (Sample.ctx Sample.tenant "" (mkStorage 0 "../x" "Local" false))
             Sample.tenant (mkStorage 0 "../x" "Local" false)
             eq_refl eq_refl eq_refl). reflexivity.
Defined.

(** C5. For a non-admin Update the existing record is loaded by the id of
    the request first: a failed load is answered with the store's error;
    an existing record whose [MountPath] does not start with [BasePath] is
    answered with "permission denied" and the store's update is not called;
    only for an owned record is the new [MountPath] rewritten and checked,
    by the text Create uses (same refusal, same record handed on), before
    the store's update is called. *)
Theorem UpdateStorage_checks_ownership_first
    (env : Env) (c : gin_Context) (user : User) (req : Storage)
    (Hreq : ShouldBind_Storage c = inl req)
    (Huser : UserKey c = Some user)
    (Hnonadmin : IsAdmin user = false) :
  (forall err, db_GetStorageById env (ID req) = inr err ->
     UpdateStorage env c = (ErrorResp err 500 false, [DbGetStorageById (ID req)])) /\
  (forall oldS, db_GetStorageById env (ID req) = inl oldS ->
     GoStrings.HasPrefix (MountPath oldS) (BasePath user) = false ->
     UpdateStorage env c = (ErrorStrResp "permission denied" 403, [DbGetStorageById (ID req)])) /\
  (forall oldS, db_GetStorageById env (ID req) = inl oldS ->
     GoStrings.HasPrefix (MountPath oldS) (BasePath user) = true ->
     let req' := rewrite_MountPath user req in
     (GoStrings.HasPrefix (MountPath req') (BasePath user) = false ->
        UpdateStorage env c = (denied_under user, [DbGetStorageById (ID req)]) /\
        result (CreateStorage env c) = denied_under user /\
        store_calls (trace (CreateStorage env c)) = []) /\
     (GoStrings.HasPrefix (MountPath req') (BasePath user) = true ->
        UpdateStorage env c =
          (finish (op_UpdateStorage env req'),
           [DbGetStorageById (ID req); OpUpdateStorage req']) /\
        store_calls (trace (CreateStorage env c)) = [OpCreateStorage req'])).
Proof.
  rewrite (UpdateStorage_nonadmin env c user Huser Hnonadmin req Hreq).
  pose proof (CreateStorage_nonadmin env c user Huser Hnonadmin req Hreq) as Hc.
  split; [|split].
  - intros err Hdb. run. now rewrite Hdb.
  - intros oldS Hdb Hout. run. now rewrite Hdb, Hout.
  - intros oldS Hdb Hown req'. split; intros Hb.
    + split; [run; rewrite Hdb, Hown; fold req'; now rewrite Hb|].
      rewrite Hc. fold req'. rewrite Hb. split; reflexivity.
    + split.
      * run. rewrite Hdb, Hown. fold req'. rewrite Hb, update_eq. reflexivity.
      * rewrite Hc. fold req'. rewrite Hb. run. apply (create_store_calls env req').
Qed.

Lemma UpdateStorage_checks_ownership_first_witness :
  (* record 8 is not the tenant's; record 7 is, and is moved to "/u1/new";
     record 10 does not load; a move of record 7 to "../x" is refused *)
  UpdateStorage Sample.env
      (Sample.ctx Sample.tenant "" (mkStorage 8 "/u1/mine" "Local" false)) =
    (ErrorStrResp "permission denied" 403, [DbGetStorageById 8]) /\
  UpdateStorage Sample.env
      (Sample.ctx Sample.tenant "" (mkStorage 7 "/new" "Local" false)) =
    (SuccessResp None,
     [DbGetStorageById 7; OpUpdateStorage (mkStorage 7 "/u1/new" "Local" false)]) /\
  UpdateStorage Sample.env
      (Sample.ctx Sample.tenant "" (mkStorage 10 "/new" "Local" false)) =
    (ErrorResp Sample.not_found 500 false, [DbGetStorageById 10]) /\
  UpdateStorage Sample.env
      (Sample.ctx Sample.tenant "" (mkStorage 7 "../x" "Local" false)) =
    (ErrorStrResp "permission denied: you can only mount under /u1" 403,
     [DbGetStorageById 7]).
Proof.
  split; [|split; [|split]].
  - apply (proj1 (proj2 (UpdateStorage_checks_ownership_first Sample.env
             (Sample.ctx Sample.tenant "" (mkStorage 8 "/u1/mine" "Local" false))
             Sample.tenant (mkStorage 8 "/u1/mine" "Local" false)
             eq_refl eq_refl eq_refl)) Sample.other); reflexivity.
  - apply (proj2 (proj2 (UpdateStorage_checks_ownership_first Sample.env
             (Sample.ctx Sample.tenant "" (mkStorage 7 "/new" "Local" false))
             Sample.tenant (mkStorage 7 "/new" "Local" false)
             eq_refl eq_refl eq_refl)) Sample.drive eq_refl eq_refl). reflexivity.
  - apply (UpdateStorage_checks_ownership_first Sample.env
             (Sample.ctx Sample.tenant "" (mkStorage 10 "/new" "Local" false))
             Sample.tenant (mkStorage 10 "/new" "Local" false)
             eq_refl eq_refl eq_refl). reflexivity.
  - apply (proj2 (proj2 (UpdateStorage_checks_ownership_first Sample.env
             (Sample.ctx Sample.tenant "" (mkStorage 7 "../x" "Local" false))
             Sample.tenant (mkStorage 7 "../x" "Local" false)
             eq_refl eq_refl eq_refl)) Sample.drive eq_refl eq_refl). reflexivity.
Defined.

(** ** The aggregation of details *)
Section AggregatorFacts.

Context (env : Env) (sched : Sched).

Lemma worker_result (d : driver_Driver) (i : nat) :
  result (worker env d i) = mkDetailWithIndex i (op_GetStorageDetails env d).1.
Proof.
  unfold worker. run. destruct (op_GetStorageDetails env d) as [v [e|]]; simpl;
    [destruct (negb (errors_Is e errs_NotImplement) && negb (errors_Is e errs_StorageNotInit))|];
    reflexivity.
Qed.

Lemma dispatch_cons (user : option User) (i : nat) (s : Storage) (l : list Storage) :
  result (dispatch env user i (s :: l)) =
    (mkStorageResp (strip_BasePath user s) None :: (result (dispatch env user (S i) l)).1,
     match eligible env (MountPath (strip_BasePath user s)) with
     | Some d => (i, d) :: (result (dispatch env user (S i) l)).2
     | None => (result (dispatch env user (S i) l)).2
     end).
Proof.
  unfold eligible. simpl. run.
  destruct (HideStorageDetailsInManagePage env); [reflexivity|]. simpl.
  destruct (op_GetStorageByMountPath env (MountPath (strip_BasePath user s))) as [d|e];
    [|reflexivity].
  destruct (WithDetails d); reflexivity.
Qed.

Lemma dispatch_Storage (user : option User) (i : nat) (l : list Storage) :
  map Storage_ (result (dispatch env user i l)).1 = map (strip_BasePath user) l.
Proof.
  revert i. induction l as [|s l IH]; intros i; [reflexivity|].
  rewrite dispatch_cons. simpl. now rewrite IH.
Qed.

Lemma dispatch_details (user : option User) (i : nat) (l : list Storage) :
  map MountDetails (result (dispatch env user i l)).1 = map (fun _ => None) l.
Proof.
  revert i. induction l as [|s l IH]; intros i; [reflexivity|].
  rewrite dispatch_cons. simpl. now rewrite IH.
Qed.

Lemma dispatch_workers (user : option User) (l : list Storage) (i j : nat) (d : driver_Driver) :
  In (j, d) (result (dispatch env user i l)).2 ->
  (i <= j)%nat /\
  exists s, l !! (j - i)%nat = Some s /\
            eligible env (MountPath (strip_BasePath user s)) = Some d.
Proof.
  revert i. induction l as [|s l IH]; intros i; [intros []|].
  rewrite dispatch_cons. cbn [snd].
  intros H.
  assert (Hrest : In (j, d) (result (dispatch env user (S i) l)).2 ->
            (i <= j)%nat /\ exists s0, (s :: l) !! (j - i)%nat = Some s0 /\
              eligible env (MountPath (strip_BasePath user s0)) = Some d).
  { intros H'. destruct (IH _ H') as [Hle [s0 [Hs0 He]]]. split; [lia|].
    exists s0. split; [|exact He].
    replace (j - i)%nat with (S (j - S i)) by lia. exact Hs0. }
  destruct (eligible env (MountPath (strip_BasePath user s))) as [d0|] eqn:He; [|auto].
  destruct H as [H|H]; [|auto].
  inversion H; subst. split; [lia|]. exists s.
  rewrite Nat.sub_diag. split; [reflexivity | exact He].
Qed.

Lemma dispatch_workers_NoDup (user : option User) (l : list Storage) (i : nat) :
  NoDup (map fst (result (dispatch env user i l)).2).
Proof.
  revert i. induction l as [|s l IH]; intros i; [constructor|].
  rewrite dispatch_cons. cbn [snd].
  destruct (eligible env (MountPath (strip_BasePath user s))) as [d0|]; [|apply IH].
  simpl. constructor; [|apply IH].
  rewrite list_elem_of_In, in_map_iff. intros [[j d] [Hj Hin]]. simpl in Hj. subst j.
  apply dispatch_workers in Hin as [Hle _]. lia.
Qed.

Lemma dispatch_workers_length (user : option User) (l : list Storage) (i : nat) :
  (length (result (dispatch env user i l)).2 <= length l)%nat.
Proof.
  revert i. induction l as [|s l IH]; intros i; [reflexivity|].
  rewrite dispatch_cons. cbn [snd]. specialize (IH (S i)).
  destruct (eligible env (MountPath (strip_BasePath user s))); simpl; lia.
Qed.

Lemma dispatch_hidden (user : option User) (l : list Storage) (i : nat) :
  HideStorageDetailsInManagePage env = true ->
  dispatch env user i l =
    ((map (fun s => mkStorageResp (strip_BasePath user s) None) l, []), []).
Proof.
  intros Hh. revert i. induction l as [|s l IH]; intros i; [reflexivity|].
  simpl. rewrite Hh, IH. reflexivity.
Qed.

(** *** The channel *)

Lemma enqueue_In (m x : nat * detailWithIndex) (chan : list (nat * detailWithIndex)) :
  In x (enqueue m chan) <-> x = m \/ In x chan.
Proof.
  induction chan as [|m' chan IH]; simpl; [intuition|].
  destruct (Nat.leb m.1 m'.1); simpl; [intuition|]. rewrite IH. intuition.
Qed.

Lemma enqueue_count (f : nat * detailWithIndex -> bool) (m : nat * detailWithIndex)
    (chan : list (nat * detailWithIndex)) :
  length (List.filter f (enqueue m chan)) = length (List.filter f (m :: chan)).
Proof.
  induction chan as [|m' chan IH]; [reflexivity|]. simpl.
  destruct (Nat.leb m.1 m'.1); [reflexivity|]. simpl in *.
  destruct (f m'), (f m); simpl in *; lia.
Qed.

Lemma detailsChan_In (workers : list (nat * driver_Driver)) (t : nat) (r : detailWithIndex) :
  In (t, r) (detailsChan env sched workers) ->
  exists d, In (idx r, d) workers /\ arrival sched (idx r) = Some t /\
            val r = (op_GetStorageDetails env d).1.
Proof.
  induction workers as [|[i d] workers IH]; [intros []|]. cbn [detailsChan].
  destruct (arrival sched i) as [t0|] eqn:Harr.
  - rewrite enqueue_In. intros [H|H].
    + rewrite worker_result in H. inversion H; subst. simpl. exists d.
      split; [left; reflexivity | auto].
    + destruct (IH H) as [d' [? ?]]. exists d'. split; [right; assumption | assumption].
  - intros H. destruct (IH H) as [d' [? ?]]. exists d'.
    split; [right; assumption | assumption].
Qed.

Lemma detailsChan_count (workers : list (nat * driver_Driver)) (i : nat) :
  NoDup (map fst workers) ->
  (length (List.filter (fun m => Nat.eqb (idx m.2) i) (detailsChan env sched workers)) <= 1)%nat.
Proof.
  induction workers as [|[j d] workers IH]; [simpl; lia|].
  cbn [detailsChan map fst]. intros Hnd. apply NoDup_cons in Hnd as [Hj Hnd]. specialize (IH Hnd).
  destruct (arrival sched j) as [t|]; [|exact IH].
  rewrite enqueue_count. cbn [List.filter]. rewrite worker_result. cbn [snd idx].
  destruct (Nat.eqb_spec j i) as [->|Hne]; [|exact IH]. simpl.
  assert (Hnone : List.filter (fun m => Nat.eqb (idx m.2) i)
                    (detailsChan env sched workers) = []).
  { destruct (List.filter _ _) as [|[t' m] rest] eqn:Hf; [reflexivity|]. exfalso.
    assert (Hin : In (t', m) (List.filter (fun m => Nat.eqb (idx m.2) i)
                                (detailsChan env sched workers)))
      by (rewrite Hf; left; reflexivity).
    apply filter_In in Hin as [Hin Hi]. simpl in Hi. apply Nat.eqb_eq in Hi.
    apply detailsChan_In in Hin as [d' [Hin _]]. apply Hj.
    rewrite list_elem_of_In, in_map_iff. exists (idx m, d'). rewrite Hi in *. auto. }
  rewrite Hnone. simpl. lia.
Qed.

(** *** The collection loop *)

Lemma collect_S (w now : nat) (chan : list (nat * detailWithIndex)) (ret : list StorageResp) :
  collect sched (S w) now chan ret =
    match chan with
    | (t, r) :: chan' =>
        if Nat.ltb t (now + 3000) || (tie_recv sched && Nat.eqb t (now + 3000))
        then
          (result (collect sched w (Nat.max now t) chan'
                     (alter (set_MountDetails (val r)) (idx r) ret)),
           ChanRecv r :: trace (collect sched w (Nat.max now t) chan'
                                  (alter (set_MountDetails (val r)) (idx r) ret)))
        else ((ret, (now + 3000)%nat), [TimeAfterFired])
    | [] => ((ret, (now + 3000)%nat), [TimeAfterFired])
    end.
Proof.
  simpl. destruct chan as [|[t r] chan']; [reflexivity|].
  destruct (Nat.ltb t (now + 3000) || (tie_recv sched && Nat.eqb t (now + 3000)));
    reflexivity.
Qed.

Lemma collect_Storage (w now : nat) (chan : list (nat * detailWithIndex))
    (ret : list StorageResp) :
  map Storage_ (result (collect sched w now chan ret)).1 = map Storage_ ret.
Proof.
  revert now chan ret. induction w as [|w IH]; intros now chan ret; [reflexivity|].
  rewrite collect_S. destruct chan as [|[t r] chan']; [reflexivity|].
  destruct (_ || _); [|reflexivity]. cbn [result fst]. fold (@result (list StorageResp * nat)).
  rewrite IH. apply list_eq. intros i.
  rewrite !list_lookup_fmap.
  destruct (decide (idx r = i)) as [<-|Hne].
  - rewrite list_lookup_alter_eq. now destruct (ret !! idx r).
  - now rewrite list_lookup_alter_ne.
Qed.

(** The loop is left at most 3000 ms per started goroutine after [now]. *)
Lemma collect_time (w now : nat) (chan : list (nat * detailWithIndex))
    (ret : list StorageResp) :
  (now <= (result (collect sched w now chan ret)).2 <= now + 3000 * w)%nat.
Proof.
  revert now chan ret. induction w as [|w IH]; intros now chan ret; [simpl; lia|].
  rewrite collect_S. destruct chan as [|[t r] chan']; [simpl; lia|].
  destruct (_ || _) eqn:Hc; [|simpl; lia]. cbn [result fst].
  fold (@result (list StorageResp * nat)).
  specialize (IH (Nat.max now t) chan' (alter (set_MountDetails (val r)) (idx r) ret)).
  assert (t <= now + 3000)%nat.
  { apply orb_true_iff in Hc as [Hc|Hc].
    - apply Nat.ltb_lt in Hc. lia.
    - apply andb_true_iff in Hc as [_ Hc]. apply Nat.eqb_eq in Hc. lia. }
  lia.
Qed.

Lemma collect_recv (w now : nat) (chan : list (nat * detailWithIndex))
    (ret : list StorageResp) (m : detailWithIndex) :
  In (ChanRecv m) (trace (collect sched w now chan ret)) -> exists t, In (t, m) chan.
Proof.
  revert now chan ret. induction w as [|w IH]; intros now chan ret; [intros []|].
  rewrite collect_S. destruct chan as [|[t r] chan']; [intros [H|[]]; discriminate|].
  destruct (_ || _); [|intros [H|[]]; discriminate].
  cbn [trace snd]. fold (@trace (list StorageResp * nat)).
  intros [H|H].
  - inversion H; subst. exists t. left. reflexivity.
  - destruct (IH _ _ _ H) as [t' Ht']. exists t'. right. exact Ht'.
Qed.

Lemma collect_slot_writes (w now : nat) (chan : list (nat * detailWithIndex))
    (ret : list StorageResp) (i : nat) :
  (slot_writes i (trace (collect sched w now chan ret)) <=
   length (List.filter (fun m => Nat.eqb (idx m.2) i) chan))%nat.
Proof.
  revert now chan ret. induction w as [|w IH]; intros now chan ret;
    [unfold slot_writes; simpl; lia|].
  rewrite collect_S. destruct chan as [|[t r] chan']; [unfold slot_writes; simpl; lia|].
  destruct (_ || _).
  - cbn [trace snd]. fold (@trace (list StorageResp * nat)).
    specialize (IH (Nat.max now t) chan' (alter (set_MountDetails (val r)) (idx r) ret)).
    unfold slot_writes in *. simpl. destruct (Nat.eqb (idx r) i); simpl; lia.
  - unfold slot_writes. simpl. lia.
Qed.

(** A slot keeps the details it had, or holds the value of a received
    message addressed to it. *)
Lemma collect_details (w now : nat) (chan : list (nat * detailWithIndex))
    (ret : list StorageResp) (i : nat) (r : StorageResp) :
  (result (collect sched w now chan ret)).1 !! i = Some r ->
  (exists r0, ret !! i = Some r0 /\ MountDetails r = MountDetails r0) \/
  (exists t m, In (t, m) chan /\ idx m = i /\ MountDetails r = val m /\
               In (ChanRecv m) (trace (collect sched w now chan ret))).
Proof.
  revert now chan ret. induction w as [|w IH]; intros now chan ret.
  - simpl. intros H. left. eauto.
  - rewrite collect_S. destruct chan as [|[t m] chan']; [simpl; intros H; left; eauto|].
    destruct (_ || _); [|simpl; intros H; left; eauto].
    cbn [result trace fst snd].
    fold (@result (list StorageResp * nat)). fold (@trace (list StorageResp * nat)).
    intros H. destruct (IH _ _ _ H) as [[r0 [Hr0 Hd]]|[t' [m' [Hin [Hi [Hd Hrecv]]]]]].
    + destruct (decide (idx m = i)) as [Heq|Hne].
      * right. exists t, m. subst i. rewrite list_lookup_alter_eq in Hr0.
        destruct (ret !! idx m) as [r1|]; [|discriminate]. simpl in Hr0.
        inversion Hr0; subst r0. simpl in Hd.
        repeat split; [left; reflexivity | exact Hd | left; reflexivity].
      * left. rewrite list_lookup_alter_ne in Hr0 by exact Hne. eauto.
    + right. exists t', m'. repeat split; [right; exact Hin | exact Hi | exact Hd | right; exact Hrecv].
Qed.

Lemma collect_no_calls (w now : nat) (chan : list (nat * detailWithIndex))
    (ret : list StorageResp) :
  Forall (fun c => c = TimeAfterFired \/ exists m, c = ChanRecv m)
         (trace (collect sched w now chan ret)).
Proof.
  revert now chan ret. induction w as [|w IH]; intros now chan ret; [constructor|].
  rewrite collect_S. destruct chan as [|[t m] chan']; [repeat constructor|].
  destruct (_ || _); [|repeat constructor].
  cbn [trace snd]. fold (@trace (list StorageResp * nat)).
  constructor; [right; eauto | apply IH].
Qed.

End AggregatorFacts.

Section AggregatorTrace.

Context (env : Env) (sched : Sched).

Lemma worker_trace_pure (d : driver_Driver) (i : nat) :
  existsb mutates (trace (worker env d i)) = false.
Proof.
  unfold worker. run. destruct (op_GetStorageDetails env d) as [v [e|]]; simpl;
    [destruct (negb (errors_Is e errs_NotImplement) && negb (errors_Is e errs_StorageNotInit))|];
    reflexivity.
Qed.

Lemma dispatch_trace_cons (user : option User) (i : nat) (s : Storage) (l : list Storage) :
  trace (dispatch env user i (s :: l)) =
    (if HideStorageDetailsInManagePage env then []
     else OpGetStorageByMountPath (MountPath (strip_BasePath user s)) ::
          match eligible env (MountPath (strip_BasePath user s)) with
          | Some d => [Go (trace (worker env d i))]
          | None => []
          end) ++ trace (dispatch env user (S i) l).
Proof.
  unfold eligible. simpl. run.
  destruct (HideStorageDetailsInManagePage env); simpl; [now rewrite List.app_nil_r|].
  destruct (op_GetStorageByMountPath env (MountPath (strip_BasePath user s))) as [d|e];
    simpl; [|now rewrite List.app_nil_r].
  destruct (WithDetails d); simpl; now rewrite List.app_nil_r.
Qed.

Lemma dispatch_go (user : option User) (l : list Storage) (i j : nat) (d : driver_Driver) :
  In (j, d) (result (dispatch env user i l)).2 ->
  In (Go (trace (worker env d j))) (trace (dispatch env user i l)).
Proof.
  revert i. induction l as [|s l IH]; intros i; [intros []|].
  rewrite dispatch_cons, dispatch_trace_cons. cbn [snd]. intros H.
  apply in_or_app.
  destruct (eligible env (MountPath (strip_BasePath user s))) as [d0|] eqn:He.
  - destruct H as [H|H]; [|right; apply IH, H]. inversion H; subst. left.
    unfold eligible in He. destruct (HideStorageDetailsInManagePage env); [discriminate|].
    right. left. reflexivity.
  - right. apply IH, H.
Qed.

Lemma dispatch_no_recv (user : option User) (l : list Storage) (i : nat) :
  Forall (fun c => forall m, c <> ChanRecv m) (trace (dispatch env user i l)).
Proof.
  revert i. induction l as [|s l IH]; intros i; [constructor|].
  rewrite dispatch_trace_cons. apply Forall_app. split; [|apply IH].
  destruct (HideStorageDetailsInManagePage env); [constructor|].
  constructor; [discriminate|].
  destruct (eligible env (MountPath (strip_BasePath user s))); repeat constructor; discriminate.
Qed.

Lemma dispatch_trace_pure (user : option User) (l : list Storage) (i : nat) :
  existsb mutates (trace (dispatch env user i l)) = false.
Proof.
  revert i. induction l as [|s l IH]; intros i; [reflexivity|].
  rewrite dispatch_trace_cons, existsb_app, IH, orb_false_r.
  destruct (HideStorageDetailsInManagePage env); [reflexivity|].
  destruct (eligible env (MountPath (strip_BasePath user s))) as [d|]; [|reflexivity].
  change (false || (existsb mutates (trace (worker env d i)) || false) = false).
  now rewrite worker_trace_pure.
Qed.

Lemma collect_trace_pure (w now : nat) (chan : list (nat * detailWithIndex))
    (ret : list StorageResp) :
  existsb mutates (trace (collect sched w now chan ret)) = false.
Proof.
  pose proof (collect_no_calls sched w now chan ret) as H.
  induction H as [|c t [->|[m ->]] _ IH]; simpl; auto.
Qed.

Lemma makeStorageResp_timed_eq (ctx : gin_Context) (storages : list Storage) :
  makeStorageResp_timed env sched ctx storages =
    (result (collect sched (length (started env ctx storages)) 0
               (detailsChan env sched (started env ctx storages))
               (result (dispatch env (UserKey ctx) 0 storages)).1),
     trace (dispatch env (UserKey ctx) 0 storages) ++
     trace (collect sched (length (started env ctx storages)) 0
              (detailsChan env sched (started env ctx storages))
              (result (dispatch env (UserKey ctx) 0 storages)).1)).
Proof. reflexivity. Qed.

Lemma makeStorageResp_eq (ctx : gin_Context) (storages : list Storage) :
  makeStorageResp env sched ctx storages =
    ((result (makeStorageResp_timed env sched ctx storages)).1,
     trace (makeStorageResp_timed env sched ctx storages)).
Proof. unfold makeStorageResp. run. now rewrite List.app_nil_r. Qed.

Lemma slot_writes_app (i : nat) (a b : list Call) :
  slot_writes i (a ++ b) = (slot_writes i a + slot_writes i b)%nat.
Proof. unfold slot_writes. now rewrite List.filter_app, List.length_app. Qed.

Lemma slot_writes_no_recv (i : nat) (t : list Call) :
  Forall (fun c => forall m, c <> ChanRecv m) t -> slot_writes i t = 0%nat.
Proof.
  unfold slot_writes. induction 1 as [|c t Hc _ IH]; [reflexivity|].
  simpl. destruct c; simpl; try exact IH. now destruct (Hc r).
Qed.

Lemma makeStorageResp_Storage (ctx : gin_Context) (storages : list Storage) :
  map Storage_ (result (makeStorageResp env sched ctx storages)) =
  map (strip_BasePath (UserKey ctx)) storages.
Proof.
  rewrite makeStorageResp_eq, makeStorageResp_timed_eq. cbn [result fst].
  fold (@result (list StorageResp * nat)).
  rewrite collect_Storage. apply dispatch_Storage.
Qed.

Lemma makeStorageResp_pure (ctx : gin_Context) (storages : list Storage) :
  existsb mutates (trace (makeStorageResp env sched ctx storages)) = false.
Proof.
  rewrite makeStorageResp_eq, makeStorageResp_timed_eq. cbn [trace snd].
  rewrite existsb_app, dispatch_trace_pure.
  apply collect_trace_pure.
Qed.

End AggregatorTrace.

(** C8. For a batch of N records [makeStorageResp] returns N responses in
    input order. In the collection loop a slot is written at most once, and
    only with the message of the goroutine started for that slot. A slot
    holds details only when the hide-details flag is off, the driver of its
    record resolved and has the details capability, its goroutine reported,
    and the fetch returned details; in every other case it is nil. With the
    flag set no call is made at all. A fetch that fails (and so returns no
    details) leaves its slot nil and the batch is returned all the same. *)
Theorem makeStorageResp_slots
    (env : Env) (sched : Sched) (ctx : gin_Context) (storages : list Storage) :
  let out := result (makeStorageResp env sched ctx storages) in
  let tr := trace (makeStorageResp env sched ctx storages) in
  map Storage_ out = map (strip_BasePath (UserKey ctx)) storages /\
  length out = length storages /\
  (forall i, (slot_writes i tr <= 1)%nat) /\
  (forall m, In (ChanRecv m) tr ->
     exists s d, storages !! idx m = Some s /\
       eligible env (MountPath (strip_BasePath (UserKey ctx) s)) = Some d /\
       In (Go (trace (worker env d (idx m)))) tr /\
       m = result (worker env d (idx m))) /\
  (forall i r v, out !! i = Some r -> MountDetails r = Some v ->
     exists s d t, storages !! i = Some s /\
       HideStorageDetailsInManagePage env = false /\
       op_GetStorageByMountPath env (MountPath (strip_BasePath (UserKey ctx) s)) = inl d /\
       WithDetails d = true /\
       arrival sched i = Some t /\
       (op_GetStorageDetails env d).1 = Some v /\
       In (ChanRecv (mkDetailWithIndex i (Some v))) tr) /\
  (HideStorageDetailsInManagePage env = true ->
     tr = [] /\ Forall (fun r => MountDetails r = None) out) /\
  ((forall d e, (op_GetStorageDetails env d).2 = Some e ->
                (op_GetStorageDetails env d).1 = None) ->
   forall i r s d e, out !! i = Some r -> storages !! i = Some s ->
     op_GetStorageByMountPath env (MountPath (strip_BasePath (UserKey ctx) s)) = inl d ->
     (op_GetStorageDetails env d).2 = Some e ->
     MountDetails r = None).
Proof.
  intros out tr.
  assert (Hout : out = (result (collect sched (length (started env ctx storages)) 0
                          (detailsChan env sched (started env ctx storages))
                          (result (dispatch env (UserKey ctx) 0 storages)).1)).1)
    by (subst out; now rewrite makeStorageResp_eq, makeStorageResp_timed_eq).
  assert (Htr : tr = trace (dispatch env (UserKey ctx) 0 storages) ++
                     trace (collect sched (length (started env ctx storages)) 0
                              (detailsChan env sched (started env ctx storages))
                              (result (dispatch env (UserKey ctx) 0 storages)).1))
    by (subst tr; now rewrite makeStorageResp_eq, makeStorageResp_timed_eq).
  assert (Hstorage : map Storage_ out = map (strip_BasePath (UserKey ctx)) storages)
    by apply makeStorageResp_Storage.
  assert (Hrecv : forall m, In (ChanRecv m) tr ->
            exists s d t, storages !! idx m = Some s /\
              eligible env (MountPath (strip_BasePath (UserKey ctx) s)) = Some d /\
              In (Go (trace (worker env d (idx m)))) tr /\
              arrival sched (idx m) = Some t /\
              val m = (op_GetStorageDetails env d).1).
  { intros m Hm. rewrite Htr in Hm. apply in_app_or in Hm as [Hm|Hm].
    - pose proof (dispatch_no_recv env (UserKey ctx) storages 0) as Hno.
      rewrite Forall_forall in Hno. apply list_elem_of_In in Hm.
      now destruct (Hno _ Hm m).
    - apply collect_recv in Hm as [t Hm].
      apply detailsChan_In in Hm as [d [Hin [Harr Hval]]].
      pose proof (dispatch_go env _ _ _ _ _ Hin) as Hgo.
      apply dispatch_workers in Hin as [_ [s [Hs He]]].
      rewrite Nat.sub_0_r in Hs. exists s, d, t.
      repeat split; try assumption. rewrite Htr. apply in_or_app. left. exact Hgo. }
  assert (Hdetails : forall i r v, out !! i = Some r -> MountDetails r = Some v ->
            exists s d t, storages !! i = Some s /\
              eligible env (MountPath (strip_BasePath (UserKey ctx) s)) = Some d /\
              arrival sched i = Some t /\
              (op_GetStorageDetails env d).1 = Some v /\
              In (ChanRecv (mkDetailWithIndex i (Some v))) tr).
  { intros i r v Hi Hv. rewrite Hout in Hi.
    apply collect_details in Hi as [[r0 [Hr0 Hd]]|[t [m [Hin [Hidx [Hd Hrc]]]]]].
    - exfalso. pose proof (dispatch_details env (UserKey ctx) 0 storages) as Hnil.
      assert (Hl : (map MountDetails (result (dispatch env (UserKey ctx) 0 storages)).1) !! i
                   = Some (MountDetails r0)) by (rewrite list_lookup_fmap, Hr0; reflexivity).
      rewrite Hnil, list_lookup_fmap in Hl.
      destruct (storages !! i); simpl in Hl; congruence.
    - assert (Hm : In (ChanRecv m) tr) by (rewrite Htr; apply in_or_app; right; exact Hrc).
      destruct (Hrecv m Hm) as [s [d [t' [Hs [He [_ [Harr Hval]]]]]]].
      subst i. exists s, d, t'. repeat split; try assumption.
      + congruence.
      + destruct m as [j w]. simpl in *. congruence. }
  split; [exact Hstorage|]. split.
  { rewrite <- (length_map Storage_ out), Hstorage. apply length_map. }
  split.
  { intros i. rewrite Htr, slot_writes_app.
    rewrite (slot_writes_no_recv i _ (dispatch_no_recv env (UserKey ctx) storages 0)).
    etransitivity; [apply collect_slot_writes|].
    apply detailsChan_count, dispatch_workers_NoDup. }
  split.
  { intros m Hm. destruct (Hrecv m Hm) as [s [d [t [Hs [He [Hgo [_ Hval]]]]]]].
    exists s, d. repeat split; try assumption.
    rewrite worker_result. destruct m as [j w]. simpl in *. congruence. }
  split.
  { intros i r v Hi Hv. destruct (Hdetails i r v Hi Hv) as [s [d [t [Hs [He [Harr [Hf Hrc]]]]]]].
    exists s, d, t. unfold eligible in He.
    destruct (HideStorageDetailsInManagePage env); [discriminate|].
    destruct (op_GetStorageByMountPath env _) as [d'|]; [|discriminate].
    destruct (WithDetails d') eqn:Hw; [|discriminate].
    inversion He; subst d'. repeat split; assumption. }
  split.
  { intros Hh. split.
    - rewrite Htr. unfold started. rewrite (dispatch_hidden env _ _ _ Hh). reflexivity.
    - rewrite Forall_forall. intros r Hr. apply list_elem_of_lookup in Hr as [i Hi].
      destruct (MountDetails r) as [v|] eqn:Hv; [|reflexivity].
      destruct (Hdetails i r v Hi Hv) as [s [d [_ [_ [He _]]]]].
      unfold eligible in He. now rewrite Hh in He. }
  intros Hcontract i r s d e Hi Hs Hd He.
  destruct (MountDetails r) as [v|] eqn:Hv; [|reflexivity].
  destruct (Hdetails i r v Hi Hv) as [s' [d' [_ [Hs' [He' [_ [Hf _]]]]]]].
  rewrite Hs in Hs'. inversion Hs'; subst s'.
  unfold eligible in He'. destruct (HideStorageDetailsInManagePage env); [discriminate|].
  rewrite Hd in He'. destruct (WithDetails d); [|discriminate].
  inversion He'; subst d'. rewrite (Hcontract d e He) in Hf. discriminate.
Qed.

Lemma makeStorageResp_slots_witness :
  (* three records for the admin: slot 0 reports details, the fetch of slot 1
     fails with "storage not initialized", the driver of slot 2 has no details *)
  length (result (makeStorageResp Sample.env Sample.sched
            (Sample.ctx Sample.admin "" Sample.drive)
            [Sample.drive; Sample.other; Sample.home])) = 3%nat /\
  (exists r, result (makeStorageResp Sample.env Sample.sched
               (Sample.ctx Sample.admin "" Sample.drive)
               [Sample.drive; Sample.other; Sample.home]) !! 1%nat = Some r /\
             MountDetails r = None) /\
  trace (makeStorageResp Sample.env_hidden Sample.sched
           (Sample.ctx Sample.admin "" Sample.drive)
           [Sample.drive; Sample.other; Sample.home]) = [].
Proof.
  pose proof (makeStorageResp_slots Sample.env Sample.sched
                (Sample.ctx Sample.admin "" Sample.drive)
                [Sample.drive; Sample.other; Sample.home]) as H.
  pose proof (makeStorageResp_slots Sample.env_hidden Sample.sched
                (Sample.ctx Sample.admin "" Sample.drive)
                [Sample.drive; Sample.other; Sample.home]) as Hh.
  cbv zeta in H, Hh.
  destruct H as (_ & Hlen & _ & _ & _ & _ & Herr).
  destruct Hh as (_ & _ & _ & _ & _ & Hhid & _).
  split; [exact Hlen|]. split.
  - eexists. split; [reflexivity|].
    refine (Herr _ 1%nat _ Sample.other (mkDriver Sample.other true) errs_StorageNotInit
              eq_refl eq_refl eq_refl eq_refl).
    intros d e. simpl. destruct (Z.eqb (ID (dri_GetStorage d)) 7); simpl; congruence.
  - exact (proj1 (Hhid eq_refl)).
Defined.

(** ** The time the collection loop takes *)

Lemma collect_silent (sched : Sched) (w now : nat) (ret : list StorageResp) :
  (result (collect sched w now [] ret)).2 = (if Nat.eqb w 0 then now else now + 3000)%nat.
Proof. destruct w; reflexivity. Qed.

Lemma detailsChan_silent (env : Env) (sched : Sched) (workers : list (nat * driver_Driver)) :
  (forall i, arrival sched i = None) -> detailsChan env sched workers = [].
Proof.
  intros H. induction workers as [|[i d] workers IH]; [reflexivity|].
  simpl. now rewrite (H i).
Qed.

(** The collection loop always ends: it is left at most 3000 ms per started
    goroutine after it began, and there are at most as many goroutines as
    records. When no goroutine ever reports, it is left after exactly
    3000 ms (at once when none was started). *)
Lemma collection_loop_bounded_per_wait
    (env : Env) (sched : Sched) (ctx : gin_Context) (storages : list Storage) :
  let left_at := (result (makeStorageResp_timed env sched ctx storages)).2 in
  let workerCount := length (started env ctx storages) in
  (workerCount <= length storages)%nat /\
  (left_at <= 3000 * workerCount)%nat /\
  ((forall i, arrival sched i = None) ->
   left_at = if Nat.eqb workerCount 0 then 0%nat else 3000%nat).
Proof.
  intros left_at workerCount. subst left_at workerCount.
  rewrite makeStorageResp_timed_eq. cbn [result fst].
  fold (@result (list StorageResp * nat)).
  split; [apply dispatch_workers_length|]. split.
  - apply (collect_time sched (length (started env ctx storages)) 0).
  - intros Hsilent. rewrite (detailsChan_silent env sched _ Hsilent).
    apply collect_silent.
Qed.

Lemma collection_loop_bounded_per_wait_witness :
  ((result (makeStorageResp_timed Sample.env Sample.sched
              (Sample.ctx Sample.admin "" Sample.drive)
              [Sample.drive; Sample.other])).2 <= 3000 * 2)%nat /\
  (result (makeStorageResp_timed Sample.env (mkSched (fun _ => None) true)
             (Sample.ctx Sample.admin "" Sample.drive)
             [Sample.drive; Sample.other])).2 = 3000%nat.
Proof.
  split.
  - apply (collection_loop_bounded_per_wait Sample.env Sample.sched
             (Sample.ctx Sample.admin "" Sample.drive) [Sample.drive; Sample.other]).
  - apply (proj2 (proj2 (collection_loop_bounded_per_wait Sample.env
             (mkSched (fun _ => None) true)
             (Sample.ctx Sample.admin "" Sample.drive) [Sample.drive; Sample.other]))).
    reflexivity.
Defined.

(** C2. The claim asks for one 3000 ms budget for the whole batch, counted
    from its start and not restarted by a completion. The loop of lines
    77-85 gives up the whole batch when its timer fires ([workerCount = 0]),
    but it arms a new timer at every [select]: with two goroutines that
    report 2000 ms and 4000 ms after the loop began, the loop is left at
    4000 ms; with a third that never reports, at 7000 ms. So the loop does
    not keep the budget the claim states. *)
Theorem collection_loop_exceeds_3000ms :
  (result (makeStorageResp_timed Sample.env Sample.sched
             (Sample.ctx Sample.admin "" Sample.drive)
             [Sample.drive; Sample.other])).2 = 4000%nat /\
  (result (makeStorageResp_timed Sample.env
             (mkSched (fun i => if Nat.ltb i 2 then Some (2000 * (i + 1))%nat else None) false)
             (Sample.ctx Sample.admin "" Sample.drive)
             [Sample.drive; Sample.other; Sample.drive])).2 = 7000%nat /\
  ~ (forall (env : Env) (sched : Sched) (ctx : gin_Context) (storages : list Storage),
       ((result (makeStorageResp_timed env sched ctx storages)).2 <= 3000)%nat).
Proof.
  split; [vm_compute; reflexivity|]. split; [vm_compute; reflexivity|].
  intros H.
  specialize (H Sample.env Sample.sched (Sample.ctx Sample.admin "" Sample.drive)
                [Sample.drive; Sample.other]).
  vm_compute in H. lia.
Qed.

(** ** List *)

Lemma filter_loop_result (u : User) (storages : list Storage) :
  result (filter_loop u storages) =
  List.filter (fun s => GoStrings.HasPrefix (MountPath s) (BasePath u)) storages.
Proof.
  induction storages as [|s l IH]; [reflexivity|].
  simpl. run. unfold result in IH. rewrite IH.
  destruct (GoStrings.HasPrefix (MountPath s) (BasePath u)); reflexivity.
Qed.


Lemma filterStorages_result (c : gin_Context) (storages : list Storage) :
  result (filterStorages c storages) =
    match UserKey c with
    | None => []
    | Some u =>
        if IsAdmin u then storages
        else List.filter (fun s => GoStrings.HasPrefix (MountPath s) (BasePath u)) storages
    end.
Proof.
  unfold filterStorages. destruct (UserKey c) as [u|]; [|reflexivity].
  destruct (IsAdmin u); [reflexivity | apply filter_loop_result].
Qed.

Lemma ListStorages_result (env : Env) (sched : Sched) (c : gin_Context)
    (req : PageReq) (storages : list Storage) (total : Z) :
  ShouldBind_PageReq c = inl req ->
  db_GetStorages env (Page (PageReq_Validate env req)) (PerPage (PageReq_Validate env req))
    = inl (storages, total) ->
  result (ListStorages env sched c) =
    SuccessResp (Some (PageResp
      (result (makeStorageResp env sched c (result (filterStorages c storages)))) total)).
Proof.
  intros Hreq Hdb. unfold ListStorages. rewrite Hreq. run. rewrite Hdb. reflexivity.
Qed.

Lemma strip_BasePath_admin (u : User) (s : Storage) :
  IsAdmin u = true -> strip_BasePath (Some u) s = s.
Proof. intros H. unfold strip_BasePath. now rewrite H. Qed.

(** C3. On a page [storages] with total [total] read from the store,
    [ListStorages] answers a non-admin caller with the records of the page
    whose [MountPath] starts with the caller's [BasePath], in page order and
    in the tenant's view, and an admin caller with the whole page unchanged;
    [Total] is the store's total in both cases, so for a non-admin it can
    exceed the number of records returned (3 against 2 in the sample). *)
Theorem ListStorages_filters_page_keeps_store_total
    (env : Env) (sched : Sched) (c : gin_Context) (user : User)
    (req : PageReq) (storages : list Storage) (total : Z)
    (Hreq : ShouldBind_PageReq c = inl req)
    (Hdb : db_GetStorages env (Page (PageReq_Validate env req))
                              (PerPage (PageReq_Validate env req)) = inl (storages, total))
    (Huser : UserKey c = Some user) :
  (exists content,
    result (ListStorages env sched c) = SuccessResp (Some (PageResp content total)) /\
    (IsAdmin user = true -> map Storage_ content = storages) /\
    (IsAdmin user = false ->
       exists page,
         page = List.filter (fun s => GoStrings.HasPrefix (MountPath s) (BasePath user)) storages /\
         (forall s, In s page <->
                    In s storages /\ GoStrings.HasPrefix (MountPath s) (BasePath user) = true) /\
         map Storage_ content = map (strip_BasePath (Some user)) page /\
         (length content <= length storages)%nat)) /\
  (exists content',
     result (ListStorages Sample.env Sample.sched (Sample.ctx Sample.tenant "" Sample.drive))
       = SuccessResp (Some (PageResp content' 3)) /\
     length content' = 2%nat).
Proof.
  split.
  - eexists. split; [apply (ListStorages_result env sched c req storages total Hreq Hdb)|].
    rewrite makeStorageResp_Storage, filterStorages_result, Huser. split.
    + intros Ha. rewrite Ha. rewrite <- (map_id storages) at 2.
      apply map_ext. intros s. apply strip_BasePath_admin, Ha.
    + intros Hna. rewrite Hna. eexists. split; [reflexivity|]. split; [|split].
      * intros s. apply filter_In.
      * reflexivity.
      * rewrite <- (length_map Storage_), makeStorageResp_Storage, length_map.
        apply List.filter_length_le.
  - eexists. split; reflexivity.
Qed.

Lemma ListStorages_filters_page_keeps_store_total_witness :
  exists content,
    result (ListStorages Sample.env Sample.sched (Sample.ctx Sample.tenant "" Sample.drive))
      = SuccessResp (Some (PageResp content 3)) /\
    map Storage_ content = [mkStorage 7 "/drive" "Local" false; mkStorage 9 "/" "Local" false].
Proof.
  destruct (ListStorages_filters_page_keeps_store_total Sample.env Sample.sched
              (Sample.ctx Sample.tenant "" Sample.drive) Sample.tenant
              (mkPageReq 1 30) [Sample.drive; Sample.other; Sample.home] 3
              eq_refl eq_refl eq_refl) as [[content [Hres [_ Hna]]] _].
  exists content. split; [exact Hres|].
  destruct (Hna eq_refl) as [page [Hpage [_ [Hmap _]]]].
  rewrite Hmap, Hpage. reflexivity.
Defined.

(** ** The scope check *)

Lemma denied_under_not_plain (user : User) :
  denied_under user <> ErrorStrResp "permission denied" 403.
Proof. unfold denied_under. intros H. inversion H. Qed.

Lemma HasPrefix_false_iff (p r : string) :
  GoStrings.HasPrefix p r = false <-> ~ exists t, p = r +:+ t.
Proof.
  rewrite <- HasPrefix_iff. destruct (GoStrings.HasPrefix p r); split; congruence.
Qed.

(** C1, as the code has it. For a non-admin caller with [BasePath] [r], a
    mount path [p] is treated as under [r] exactly when [r] is a prefix of
    [p] as a string of bytes ([p = r ++ t] for some [t]); no segment
    boundary is looked at. This one test decides the filter of List, the
    refusal of Create (on the path after rewriting), the ownership test of
    Update, and the refusals of Delete, Disable, Enable and Get (on the
    loaded record). *)
Theorem scope_check_is_byte_prefix
    (env : Env) (c : gin_Context) (user : User) (p : string)
    (Huser : UserKey c = Some user)
    (Hnonadmin : IsAdmin user = false) :
  let under := exists t, p = BasePath user +:+ t in
  (GoStrings.HasPrefix p (BasePath user) = true <-> under) /\
  (forall storages s, MountPath s = p ->
     (In s (result (filterStorages c storages)) <-> In s storages /\ under)) /\
  (forall req, ShouldBind_Storage c = inl req ->
     MountPath (rewrite_MountPath user req) = p ->
     (result (CreateStorage env c) = denied_under user <-> ~ under)) /\
  (forall req oldS, ShouldBind_Storage c = inl req ->
     db_GetStorageById env (ID req) = inl oldS -> MountPath oldS = p ->
     (result (UpdateStorage env c) = ErrorStrResp "permission denied" 403 <-> ~ under)) /\
  (forall id oldS, strconv_Atoi env (Query_id c) = inl id ->
     db_GetStorageById env (uint id) = inl oldS -> MountPath oldS = p ->
     (result (DeleteStorage env c) = denied_or_not_found <-> ~ under) /\
     (result (DisableStorage env c) = denied_or_not_found <-> ~ under) /\
     (result (EnableStorage env c) = denied_or_not_found <-> ~ under) /\
     (result (GetStorage env c) = ErrorStrResp "permission denied" 403 <-> ~ under)).
Proof.
  intros under. subst under.
  split; [apply HasPrefix_iff|]. split; [|split; [|split]].
  - intros storages s Hs. rewrite filterStorages_result, Huser, Hnonadmin, filter_In.
    now rewrite Hs, HasPrefix_iff.
  - intros req Hreq Hp.
    rewrite (CreateStorage_nonadmin env c user Huser Hnonadmin req Hreq), Hp.
    rewrite <- HasPrefix_false_iff. run.
    destruct (GoStrings.HasPrefix p (BasePath user)); simpl.
    + split; [|discriminate]. intros H. exfalso.
      apply (create_not_denied env (rewrite_MountPath user req) _ _ H).
    + split; reflexivity.
  - intros req oldS Hreq Hdb Hp.
    rewrite (UpdateStorage_nonadmin env c user Huser Hnonadmin req Hreq).
    rewrite <- HasPrefix_false_iff. run. rewrite Hdb, Hp.
    destruct (GoStrings.HasPrefix p (BasePath user)); [|split; reflexivity].
    split; [|discriminate]. intros H. exfalso.
    destruct (GoStrings.HasPrefix (MountPath (rewrite_MountPath user req)) (BasePath user)).
    + rewrite update_eq in H. simpl in H. apply (finish_not_denied _ _ _ H).
    + apply (denied_under_not_plain user H).
  - intros id oldS Hid Hdb Hp.
    rewrite (DeleteStorage_nonadmin env c user Huser Hnonadmin id Hid).
    rewrite (DisableStorage_nonadmin env c user Huser Hnonadmin id Hid).
    rewrite (EnableStorage_nonadmin env c user Huser Hnonadmin id Hid).
    rewrite (GetStorage_nonadmin env c user Huser Hnonadmin id Hid).
    rewrite <- HasPrefix_false_iff. unfold owned. rewrite Hdb, Hp.
    destruct (GoStrings.HasPrefix p (BasePath user)); simpl.
    + repeat split; try discriminate; intros H; exfalso;
        apply (finish_not_denied _ _ _ H).
    + repeat split; reflexivity.
Qed.

Lemma scope_check_is_byte_prefix_witness :
  (* the tenant of /u1 and the record /u2/other: not listed, not deletable *)
  ~ In Sample.other
       (result (filterStorages (Sample.ctx Sample.tenant "8" Sample.drive)
                  [Sample.drive; Sample.other; Sample.home])) /\
  result (DeleteStorage Sample.env (Sample.ctx Sample.tenant "8" Sample.drive))
    = denied_or_not_found.
Proof.
  pose proof (scope_check_is_byte_prefix Sample.env
                (Sample.ctx Sample.tenant "8" Sample.drive) Sample.tenant "/u2/other"
                eq_refl eq_refl) as H.
  cbv zeta in H. destruct H as (Hpre & Hlist & _ & _ & Hid).
  assert (Hnot : ~ exists t, "/u2/other" = BasePath Sample.tenant +:+ t)
    by (rewrite <- Hpre; discriminate).
  split.
  - intros Hin. apply (Hlist _ Sample.other eq_refl) in Hin as [_ Hu]. exact (Hnot Hu).
  - apply (Hid 8 Sample.other eq_refl eq_refl eq_refl). exact Hnot.
Defined.

(** C1, as stated, fails: the sibling path "/abcd" is treated as under the
    root "/ab", which the segment-exact reading excludes. The tenant of
    "/ab" is shown the record, may mount at "/abcd", and may delete it. *)
Lemma abcd_is_under_ab :
  IsUnderRoot_segment "/abcd" "/ab" = false /\
  GoStrings.HasPrefix "/abcd" "/ab" = true /\
  result (filterStorages (Sample.ctx (mkUser "ab" false "/ab") "7" Sample.drive)
            [mkStorage 7 "/abcd" "Local" false]) = [mkStorage 7 "/abcd" "Local" false] /\
  CreateStorage Sample.env
      (Sample.ctx (mkUser "ab" false "/ab") "7" (mkStorage 0 "/abcd" "Local" false)) =
    (SuccessResp (Some (H_id 11)),
     [Log Infof "Debug CreateStorage: User=%s IsAdmin=%v MountPath=%s BasePath=%s";
      OpCreateStorage (mkStorage 0 "/abcd" "Local" false)]) /\
  DeleteStorage
      (Sample.make_env false (fun _ => inl (mkStorage 7 "/abcd" "Local" false)))
      (Sample.ctx (mkUser "ab" false "/ab") "7" Sample.drive) =
    (SuccessResp None, [DbGetStorageById 7; OpDeleteStorageById 7]) /\
  GetStorage
      (Sample.make_env false (fun _ => inl (mkStorage 7 "/abcd" "Local" false)))
      (Sample.ctx (mkUser "ab" false "/ab") "7" Sample.drive) =
    (SuccessResp (Some (StorageData (mkStorage 7 "cd" "Local" false))),
     [DbGetStorageById 7]).
Proof. repeat split. Qed.

(** ** The tenant view and its inverse *)


Lemma ToRelative_app (r t : string) :
  ToRelative (r +:+ t) r = if String.eqb t "" then "/" else t.
Proof. unfold ToRelative. now rewrite HasPrefix_app, TrimPrefix_app. Qed.

Lemma strip_BasePath_ToRelative (u : User) (s : Storage) :
  IsAdmin u = false ->
  GoStrings.HasPrefix (MountPath s) (BasePath u) = true ->
  strip_BasePath (Some u) s = set_MountPath s (ToRelative (MountPath s) (BasePath u)).
Proof. intros Hna Hp. unfold strip_BasePath, ToRelative. now rewrite Hna, Hp. Qed.










(** ** Reload *)

Lemma reload_loop_trace (env : Env) (storages : list Storage) :
  trace (reload_loop env storages) =
  concat (map (fun s => trace (reload_one env s)) storages).
Proof.
  induction storages as [|s l IH]; [reflexivity|].
  simpl. run. unfold trace in IH. now rewrite IH.
Qed.

Lemma reload_one_cases (env : Env) (storage : Storage) :
  let mp := OpGetStorageByMountPath (MountPath storage) in
  match op_GetStorageByMountPath env (MountPath storage) with
  | inr _ =>
      trace (reload_one env storage) = [mp; Log Errorf "failed get storage driver: %+v"]
  | inl d =>
      match Drop env d with
      | Some _ =>
          trace (reload_one env storage) =
            [mp; DriverDrop d; Log Errorf "failed drop storage: %+v"]
      | None =>
          match op_LoadStorage env storage with
          | Some _ =>
              trace (reload_one env storage) =
                [mp; DriverDrop d; OpLoadStorage storage;
                 Log Errorf "failed get enabled storages: %+v"]
          | None =>
              trace (reload_one env storage) =
                [mp; DriverDrop d; OpLoadStorage storage;
                 Log Infof "success load storage: [%s], driver: [%s]"]
          end
      end
  end.
Proof.
  unfold reload_one. run.
  destruct (op_GetStorageByMountPath env (MountPath storage)) as [d|e]; [|reflexivity].
  simpl. destruct (Drop env d); [reflexivity|].
  simpl. destruct (op_LoadStorage env storage); reflexivity.
Qed.

(** C9. [LoadAllStorages] fails with 500 and touches no signal when the
    enabled storages cannot be read. Otherwise it resets the load signal,
    starts the background task and answers success without waiting for it.
    The task goes through the snapshot in order; every storage is attempted
    (its driver is resolved first), a failed resolve, drop or re-init is
    logged and ends only that storage's turn, and the loaded signal is sent
    once, after the turn of the last storage. *)
Theorem LoadAllStorages_reload (env : Env) (c : gin_Context) :
  (forall err, db_GetEnabledStorages env = inr err ->
     LoadAllStorages env c =
       (ErrorResp err 500 true,
        [DbGetEnabledStorages; Log Errorf "failed get enabled storages: %+v"])) /\
  (forall storages, db_GetEnabledStorages env = inl storages ->
     LoadAllStorages env c =
       (SuccessResp None,
        [DbGetEnabledStorages; ConfResetStoragesLoadSignal;
         Go (trace (reload env storages))]) /\
     trace (reload env storages) =
       concat (map (fun s => trace (reload_one env s)) storages) ++
       [ConfSendStoragesLoadedSignal] /\
     (forall s, In s storages ->
        (exists rest, trace (reload_one env s) =
                        OpGetStorageByMountPath (MountPath s) :: rest) /\
        ~ In ConfSendStoragesLoadedSignal (trace (reload_one env s)) /\
        ((exists e, op_GetStorageByMountPath env (MountPath s) = inr e) ->
           trace (reload_one env s) =
             [OpGetStorageByMountPath (MountPath s);
              Log Errorf "failed get storage driver: %+v"]) /\
        (forall d, op_GetStorageByMountPath env (MountPath s) = inl d ->
           (exists e, Drop env d = Some e) ->
           trace (reload_one env s) =
             [OpGetStorageByMountPath (MountPath s); DriverDrop d;
              Log Errorf "failed drop storage: %+v"]) /\
        (forall d, op_GetStorageByMountPath env (MountPath s) = inl d ->
           Drop env d = None ->
           trace (reload_one env s) =
             [OpGetStorageByMountPath (MountPath s); DriverDrop d; OpLoadStorage s;
              match op_LoadStorage env s with
              | Some _ => Log Errorf "failed get enabled storages: %+v"
              | None => Log Infof "success load storage: [%s], driver: [%s]"
              end]))).
Proof.
  split.
  - intros err Hdb. unfold LoadAllStorages. run. now rewrite Hdb.
  - intros storages Hdb. split; [|split].
    + unfold LoadAllStorages. run. now rewrite Hdb.
    + unfold reload. run. unfold trace in *.
      pose proof (reload_loop_trace env storages) as Hl. unfold trace in Hl.
      now rewrite Hl.
    + intros s _. pose proof (reload_one_cases env s) as Hc. cbv zeta in Hc.
      destruct (op_GetStorageByMountPath env (MountPath s)) as [d|e] eqn:Hres.
      * destruct (Drop env d) as [e|] eqn:Hdrop;
          [|destruct (op_LoadStorage env s) as [e|] eqn:Hload]; rewrite Hc.
        all: split; [eexists; reflexivity|].
        all: split; [simpl; intuition discriminate|].
        all: split; [intros [e' He']; discriminate|].
        all: split; [intros d' Hd' Hfail; inversion Hd'; subst d'|
                     intros d' Hd' Hok; inversion Hd'; subst d'].
        all: try reflexivity.
        all: try (destruct Hfail as [e' He']; congruence).
        all: congruence.
      * rewrite Hc. split; [eexists; reflexivity|].
        split; [simpl; intuition discriminate|].
        split; [reflexivity|]. split; intros; discriminate.
Qed.

Lemma LoadAllStorages_reload_witness :
  (* three enabled storages; the drop of the second one fails *)
  LoadAllStorages Sample.env (Sample.ctx Sample.admin "" Sample.drive) =
    (SuccessResp None,
     [DbGetEnabledStorages; ConfResetStoragesLoadSignal;
      Go [OpGetStorageByMountPath "/u1/drive"; DriverDrop (mkDriver Sample.drive true);
          OpLoadStorage Sample.drive;
          Log Infof "success load storage: [%s], driver: [%s]";
          OpGetStorageByMountPath "/u2/other"; DriverDrop (mkDriver Sample.other true);
          Log Errorf "failed drop storage: %+v";
          OpGetStorageByMountPath "/u1"; DriverDrop (mkDriver Sample.home false);
          OpLoadStorage Sample.home;
          Log Infof "success load storage: [%s], driver: [%s]";
          ConfSendStoragesLoadedSignal]]).
Proof.
  exact (proj1 (proj2 (LoadAllStorages_reload Sample.env
                         (Sample.ctx Sample.admin "" Sample.drive))
                 [Sample.drive; Sample.other; Sample.home] eq_refl)).
Defined.

(** ** Further properties of the handlers *)

Lemma set_MountPath_same (s : Storage) : set_MountPath s (MountPath s) = s.
Proof. now destruct s. Qed.

(** X1. An admin caller passes no scope check and triggers no ownership
    load: Create and Update hand the request to the store as it was bound
    (whatever its [MountPath]), Delete, Disable and Enable call the op layer
    directly, Get returns the stored record with its path unchanged, and
    the list filter and the response builder leave records as they are. *)
Theorem admin_skips_scope_checks
    (env : Env) (sched : Sched) (c : gin_Context) (user : User)
    (Huser : UserKey c = Some user)
    (Hadmin : IsAdmin user = true) :
  (forall req, ShouldBind_Storage c = inl req ->
     store_calls (trace (CreateStorage env c)) = [OpCreateStorage req] /\
     UpdateStorage env c = (finish (op_UpdateStorage env req), [OpUpdateStorage req])) /\
  (forall id, strconv_Atoi env (Query_id c) = inl id ->
     DeleteStorage env c =
       (finish (op_DeleteStorageById env (uint id)), [OpDeleteStorageById (uint id)]) /\
     DisableStorage env c =
       (finish (op_DisableStorage env (uint id)), [OpDisableStorage (uint id)]) /\
     EnableStorage env c =
       (finish (op_EnableStorage env (uint id)), [OpEnableStorage (uint id)]) /\
     (forall s, db_GetStorageById env (uint id) = inl s ->
        GetStorage env c =
          (SuccessResp (Some (StorageData s)), [DbGetStorageById (uint id)]))) /\
  (forall storages,
     filterStorages c storages = (storages, []) /\
     map Storage_ (result (makeStorageResp env sched c storages)) = storages).
Proof.
  split; [|split].
  - intros req Hreq. split.
    + unfold CreateStorage. rewrite Hreq, Huser, Hadmin. run.
      apply (create_store_calls env req).
    + unfold UpdateStorage. rewrite Hreq, Huser, Hadmin. simpl negb. cbv iota.
      apply update_eq.
  - intros id Hid.
    unfold DeleteStorage, DisableStorage, EnableStorage, GetStorage.
    rewrite Hid, Huser, Hadmin. simpl negb. cbv iota. run.
    repeat split. intros s Hs. rewrite Hs. simpl. now rewrite Hadmin.
  - intros storages. split.
    + unfold filterStorages. now rewrite Huser, Hadmin.
    + rewrite makeStorageResp_Storage, Huser.
      rewrite <- (map_id storages) at 2. apply map_ext.
      intros s. apply strip_BasePath_admin, Hadmin.
Qed.

Lemma admin_skips_scope_checks_witness :
  (* the admin deletes the tenant's record 7 and mounts outside every subtree *)
  DeleteStorage Sample.env (Sample.ctx Sample.admin "7" Sample.drive) =
    (SuccessResp None, [OpDeleteStorageById 7]) /\
  store_calls (trace (CreateStorage Sample.env
                        (Sample.ctx Sample.admin "" (mkStorage 0 "x/../y" "Local" false)))) =
    [OpCreateStorage (mkStorage 0 "x/../y" "Local" false)].
Proof.
  pose proof (admin_skips_scope_checks Sample.env Sample.sched
                (Sample.ctx Sample.admin "7" Sample.drive) Sample.admin eq_refl eq_refl)
    as (_ & Hid & _).
  pose proof (admin_skips_scope_checks Sample.env Sample.sched
                (Sample.ctx Sample.admin "" (mkStorage 0 "x/../y" "Local" false))
                Sample.admin eq_refl eq_refl) as (Hreq & _).
  split.
  - exact (proj1 (Hid 7 eq_refl)).
  - exact (proj1 (Hreq _ eq_refl)).
Defined.

(** X2. A request that cannot be bound or whose [id] does not parse is
    answered 400 with the binding or parsing error before anything else
    happens: no call is made, and the user is not even looked at (so this
    holds without a user in the context too). A failure of the page read in
    List is answered 500 after the read alone: no record is filtered and no
    driver is resolved. *)
Theorem early_failures_make_no_further_call
    (env : Env) (sched : Sched) (c : gin_Context) :
  (forall err, ShouldBind_Storage c = inr err ->
     CreateStorage env c = (ErrorResp err 400 false, []) /\
     UpdateStorage env c = (ErrorResp err 400 false, [])) /\
  (forall err, strconv_Atoi env (Query_id c) = inr err ->
     DeleteStorage env c = (ErrorResp err 400 false, []) /\
     DisableStorage env c = (ErrorResp err 400 false, []) /\
     EnableStorage env c = (ErrorResp err 400 false, []) /\
     GetStorage env c = (ErrorResp err 400 false, [])) /\
  (forall err, ShouldBind_PageReq c = inr err ->
     ListStorages env sched c = (ErrorResp err 400 false, [])) /\
  (forall req err, ShouldBind_PageReq c = inl req ->
     db_GetStorages env (Page (PageReq_Validate env req))
                        (PerPage (PageReq_Validate env req)) = inr err ->
     ListStorages env sched c =
       (ErrorResp err 500 false,
        [Log Debugf "%+v";
         DbGetStorages (Page (PageReq_Validate env req))
                       (PerPage (PageReq_Validate env req))])).
Proof.
  split; [|split; [|split]].
  - intros err H. unfold CreateStorage, UpdateStorage. now rewrite H.
  - intros err H. unfold DeleteStorage, DisableStorage, EnableStorage, GetStorage.
    now rewrite H.
  - intros err H. unfold ListStorages. now rewrite H.
  - intros req err H Hdb. unfold ListStorages. rewrite H. run. now rewrite Hdb.
Qed.

Lemma early_failures_make_no_further_call_witness :
  GetStorage Sample.env (Sample.ctx Sample.tenant "seven" Sample.drive) =
    (ErrorResp (errors_New "strconv.Atoi: invalid syntax") 400 false, []) /\
  CreateStorage Sample.env
      (mkContext None "" (inr (errors_New "EOF")) (inr (errors_New "EOF"))) =
    (ErrorResp (errors_New "EOF") 400 false, []).
Proof.
  pose proof (early_failures_make_no_further_call Sample.env Sample.sched
                (Sample.ctx Sample.tenant "seven" Sample.drive)) as (_ & Hid & _).
  pose proof (early_failures_make_no_further_call Sample.env Sample.sched
                (mkContext None "" (inr (errors_New "EOF")) (inr (errors_New "EOF"))))
    as (Hbind & _).
  split.
  - exact (proj2 (proj2 (proj2 (Hid _ eq_refl)))).
  - exact (proj1 (Hbind _ eq_refl)).
Defined.

(** X3. Without a user under [conf.UserKey]: List still reads the page and
    answers success with an empty content and the store's total, resolving
    no driver; Create, Update, Delete, Disable, Enable and Get, once their
    input is valid, panic on the type assertion before any call to the
    store; [LoadAllStorages] never reads the user and runs as for any
    caller: it reads the enabled storages, resets the signal, starts the
    reload and answers success. *)
Theorem request_without_user
    (env : Env) (sched : Sched) (c : gin_Context)
    (Hnone : UserKey c = None) :
  (forall req storages total, ShouldBind_PageReq c = inl req ->
     db_GetStorages env (Page (PageReq_Validate env req))
                        (PerPage (PageReq_Validate env req)) = inl (storages, total) ->
     ListStorages env sched c =
       (SuccessResp (Some (PageResp [] total)),
        [Log Debugf "%+v";
         DbGetStorages (Page (PageReq_Validate env req))
                       (PerPage (PageReq_Validate env req))])) /\
  (forall req, ShouldBind_Storage c = inl req ->
     CreateStorage env c = (Panic, []) /\ UpdateStorage env c = (Panic, [])) /\
  (forall id, strconv_Atoi env (Query_id c) = inl id ->
     DeleteStorage env c = (Panic, []) /\ DisableStorage env c = (Panic, []) /\
     EnableStorage env c = (Panic, []) /\ GetStorage env c = (Panic, [])) /\
  (forall c' : gin_Context, LoadAllStorages env c = LoadAllStorages env c') /\
  (forall storages, db_GetEnabledStorages env = inl storages ->
     LoadAllStorages env c =
       (SuccessResp None,
        [DbGetEnabledStorages; ConfResetStoragesLoadSignal;
         Go (trace (reload env storages))])).
Proof.
  split; [|split; [|split; [|split]]].
  - intros req storages total Hreq Hdb. unfold ListStorages. rewrite Hreq. run.
    rewrite Hdb. unfold filterStorages. rewrite Hnone. reflexivity.
  - intros req Hreq. unfold CreateStorage, UpdateStorage. now rewrite Hreq, Hnone.
  - intros id Hid. unfold DeleteStorage, DisableStorage, EnableStorage, GetStorage.
    now rewrite Hid, Hnone.
  - intros c'. reflexivity.
  - intros storages Hdb. unfold LoadAllStorages. run. now rewrite Hdb.
Qed.

Lemma request_without_user_witness :
  ListStorages Sample.env Sample.sched
      (mkContext None "7" (inl Sample.drive) (inl (mkPageReq 1 30))) =
    (SuccessResp (Some (PageResp [] 3)), [Log Debugf "%+v"; DbGetStorages 1 30]) /\
  DeleteStorage Sample.env
      (mkContext None "7" (inl Sample.drive) (inl (mkPageReq 1 30))) = (Panic, []) /\
  result (LoadAllStorages Sample.env
            (mkContext None "7" (inl Sample.drive) (inl (mkPageReq 1 30)))) =
    SuccessResp None.
Proof.
  pose proof (request_without_user Sample.env Sample.sched
                (mkContext None "7" (inl Sample.drive) (inl (mkPageReq 1 30))) eq_refl)
    as (Hlist & _ & Hid & _ & Hload).
  split; [|split].
  - exact (Hlist (mkPageReq 1 30) [Sample.drive; Sample.other; Sample.home] 3
             eq_refl eq_refl).
  - exact (proj1 (Hid 7 eq_refl)).
  - rewrite (Hload [Sample.drive; Sample.other; Sample.home] eq_refl). reflexivity.
Defined.

Lemma uint_range (n : Z) : 0 <= uint n < 2 ^ 64.
Proof. unfold uint. apply Z.mod_pos_bound. lia. Qed.

(** X4. The parsed [id] reaches the store only as [uint(id)]: every call
    that Delete, Disable, Enable and Get make with an identifier carries
    [id mod 2^64], which lies in [0, 2^64). A non-negative [id] is passed as
    it is; a negative one is not refused but wraps around to [id + 2^64]. *)
Theorem store_sees_uint_of_id
    (env : Env) (c : gin_Context) (user : User) (n : Z)
    (Hid : strconv_Atoi env (Query_id c) = inl n)
    (Huser : UserKey c = Some user) :
  0 <= uint n < 2 ^ 64 /\
  (0 <= n < 2 ^ 63 -> uint n = n) /\
  (- 2 ^ 63 <= n < 0 -> uint n = n + 2 ^ 64) /\
  Forall (fun cl => call_id cl = Some (uint n)) (trace (DeleteStorage env c)) /\
  Forall (fun cl => call_id cl = Some (uint n)) (trace (DisableStorage env c)) /\
  Forall (fun cl => call_id cl = Some (uint n)) (trace (EnableStorage env c)) /\
  Forall (fun cl => call_id cl = Some (uint n)) (trace (GetStorage env c)).
Proof.
  split; [apply uint_range|]. split; [|split].
  - intros H. unfold uint. apply Z.mod_small. lia.
  - intros H. unfold uint.
    rewrite <- (Z.mod_add n 1 (2 ^ 64)) by lia. apply Z.mod_small. lia.
  - destruct (IsAdmin user) eqn:Hadm.
    + unfold DeleteStorage, DisableStorage, EnableStorage, GetStorage.
      rewrite Hid, Huser, Hadm. run.
      repeat split; repeat constructor.
      destruct (db_GetStorageById env (uint n)); repeat constructor.
    + rewrite (DeleteStorage_nonadmin env c user Huser Hadm n Hid).
      rewrite (DisableStorage_nonadmin env c user Huser Hadm n Hid).
      rewrite (EnableStorage_nonadmin env c user Huser Hadm n Hid).
      rewrite (GetStorage_nonadmin env c user Huser Hadm n Hid).
      destruct (owned env user (uint n)); repeat split; repeat constructor.
      all: destruct (db_GetStorageById env (uint n)) as [s|e];
        [destruct (GoStrings.HasPrefix (MountPath s) (BasePath user))|];
        repeat constructor.
Qed.

Lemma store_sees_uint_of_id_witness :
  (* with "-1" parsed to -1 the store is asked for 2^64 - 1 *)
  DeleteStorage Edge.env_signed (Sample.ctx Sample.admin "-1" Sample.drive) =
    (SuccessResp None, [OpDeleteStorageById 18446744073709551615]) /\
  Forall (fun cl => call_id cl = Some 18446744073709551615)
    (trace (DeleteStorage Edge.env_signed (Sample.ctx Sample.admin "-1" Sample.drive))).
Proof.
  split; [reflexivity|].
  exact (proj1 (proj2 (proj2 (proj2
    (store_sees_uint_of_id Edge.env_signed (Sample.ctx Sample.admin "-1" Sample.drive)
       Sample.admin (-1) eq_refl eq_refl))))).
Defined.

Lemma filter_all {A : Type} (f : A -> bool) (l : list A) :
  (forall x, f x = true) -> List.filter f l = l.
Proof. intros H. induction l as [|x l IH]; simpl; [reflexivity|]. now rewrite H, IH. Qed.

(** X5. A non-admin caller whose [BasePath] is the empty string passes
    every scope check, since every string starts with the empty one: the
    whole page is listed, any record that loads can be deleted, disabled,
    enabled and read, and Create hands the request on unchanged. The view
    shows every path as stored, and the empty path as "/". *)
Theorem empty_BasePath_passes_every_check
    (env : Env) (c : gin_Context) (user : User)
    (Huser : UserKey c = Some user)
    (Hnonadmin : IsAdmin user = false)
    (Hempty : BasePath user = "") :
  (forall storages, result (filterStorages c storages) = storages) /\
  (forall req, ShouldBind_Storage c = inl req ->
     store_calls (trace (CreateStorage env c)) = [OpCreateStorage req]) /\
  (forall id s, strconv_Atoi env (Query_id c) = inl id ->
     db_GetStorageById env (uint id) = inl s ->
     DeleteStorage env c =
       (finish (op_DeleteStorageById env (uint id)),
        [DbGetStorageById (uint id); OpDeleteStorageById (uint id)]) /\
     DisableStorage env c =
       (finish (op_DisableStorage env (uint id)),
        [DbGetStorageById (uint id); OpDisableStorage (uint id)]) /\
     EnableStorage env c =
       (finish (op_EnableStorage env (uint id)),
        [DbGetStorageById (uint id); OpEnableStorage (uint id)]) /\
     result (GetStorage env c) =
       SuccessResp (Some (StorageData
         (if String.eqb (MountPath s) "" then set_MountPath s "/" else s)))).
Proof.
  split; [|split].
  - intros storages. rewrite filterStorages_result, Huser, Hnonadmin, Hempty.
    apply filter_all. intros s. reflexivity.
  - intros req Hreq.
    rewrite (CreateStorage_nonadmin env c user Huser Hnonadmin req Hreq).
    unfold rewrite_MountPath. rewrite Hempty. simpl. run.
    apply (create_store_calls env req).
  - intros id s Hid Hdb.
    rewrite (DeleteStorage_nonadmin env c user Huser Hnonadmin id Hid).
    rewrite (DisableStorage_nonadmin env c user Huser Hnonadmin id Hid).
    rewrite (EnableStorage_nonadmin env c user Huser Hnonadmin id Hid).
    rewrite (GetStorage_nonadmin env c user Huser Hnonadmin id Hid).
    unfold owned. rewrite Hdb, Hempty. simpl. repeat split.
    unfold ToRelative, GoStrings.TrimPrefix. simpl.
    destruct (String.eqb (MountPath s) ""); [reflexivity|].
    now rewrite set_MountPath_same.
Qed.

Lemma empty_BasePath_passes_every_check_witness :
  DeleteStorage Sample.env (Sample.ctx (mkUser "guest" false "") "8" Sample.drive) =
    (SuccessResp None, [DbGetStorageById 8; OpDeleteStorageById 8]).
Proof.
  pose proof (empty_BasePath_passes_every_check Sample.env
                (Sample.ctx (mkUser "guest" false "") "8" Sample.drive)
                (mkUser "guest" false "") eq_refl eq_refl eq_refl) as (_ & _ & Hid).
  exact (proj1 (Hid 8 Sample.other eq_refl eq_refl)).
Defined.

Lemma append_inj (r a b : string) : r +:+ a = r +:+ b -> a = b.
Proof. induction r as [|x r IH]; simpl; [auto|]. intros H. inversion H. auto. Qed.

Lemma ToRelative_eq_iff (r a b : string) :
  ToRelative (r +:+ a) r = ToRelative (r +:+ b) r <->
  a = b \/ (a = "" /\ b = "/") \/ (a = "/" /\ b = "").
Proof.
  rewrite !ToRelative_app.
  destruct (String.eqb_spec a "") as [->|Ha], (String.eqb_spec b "") as [->|Hb].
  - intuition.
  - split; [intros H; right; left; split; [reflexivity | now symmetry] |].
    intros [H|[[_ H]|[H _]]]; congruence.
  - split; [intros H; right; right; split; [exact H | reflexivity] |].
    intros [H|[[H _]|[H _]]]; congruence.
  - split; [intros H; left; exact H|]. intros [H|[[H _]|[_ H]]]; congruence.
Qed.

(** X6. The tenant view tells records apart, with one exception: two
    records under the viewer's [BasePath] are shown with the same path
    exactly when they have the same [MountPath], or one is mounted at
    [BasePath] itself and the other at [BasePath] followed by a slash (both
    are shown as "/"). *)
Theorem tenant_view_collides_only_on_trailing_slash
    (u : User) (s1 s2 : Storage)
    (Hnonadmin : IsAdmin u = false)
    (H1 : GoStrings.HasPrefix (MountPath s1) (BasePath u) = true)
    (H2 : GoStrings.HasPrefix (MountPath s2) (BasePath u) = true) :
  MountPath (strip_BasePath (Some u) s1) = MountPath (strip_BasePath (Some u) s2) <->
  MountPath s1 = MountPath s2 \/
  (MountPath s1 = BasePath u /\ MountPath s2 = BasePath u +:+ "/") \/
  (MountPath s1 = BasePath u +:+ "/" /\ MountPath s2 = BasePath u).
Proof.
  rewrite (strip_BasePath_ToRelative u s1 Hnonadmin H1).
  rewrite (strip_BasePath_ToRelative u s2 Hnonadmin H2).
  cbn [MountPath set_MountPath].
  apply HasPrefix_inv in H1, H2.
  remember (GoStrings.drop (String.length (BasePath u)) (MountPath s1)) as a.
  remember (GoStrings.drop (String.length (BasePath u)) (MountPath s2)) as b.
  rewrite H1, H2, ToRelative_eq_iff.
  split; intros [H|[[Ha Hb]|[Ha Hb]]].
  - left. now rewrite H.
  - right. left. subst a b. rewrite Ha, Hb, append_empty_r. auto.
  - right. right. subst a b. rewrite Ha, Hb, append_empty_r. auto.
  - left. now apply append_inj in H.
  - right. left. rewrite <- (append_empty_r (BasePath u)) in Ha at 2.
    apply append_inj in Ha. apply append_inj in Hb. auto.
  - right. right. rewrite <- (append_empty_r (BasePath u)) in Hb at 2.
    apply append_inj in Ha. apply append_inj in Hb. auto.
Qed.

Lemma tenant_view_collides_only_on_trailing_slash_witness :
  MountPath (strip_BasePath (Some Sample.tenant) Sample.home) =
  MountPath (strip_BasePath (Some Sample.tenant) (mkStorage 12 "/u1/" "Local" false)).
Proof.
  apply (tenant_view_collides_only_on_trailing_slash Sample.tenant Sample.home
           (mkStorage 12 "/u1/" "Local" false) eq_refl eq_refl eq_refl).
  right. left. split; reflexivity.
Defined.

Lemma loaded_app (a b : list Call) : loaded (a ++ b) = loaded a ++ loaded b.
Proof.
  induction a as [|c a IH]; [reflexivity|]. destruct c; simpl; now rewrite ?IH.
Qed.

Lemma dropped_app (a b : list Call) : dropped (a ++ b) = dropped a ++ dropped b.
Proof.
  induction a as [|c a IH]; [reflexivity|]. destruct c; simpl; now rewrite ?IH.
Qed.

Lemma loaded_turns (env : Env) (storages : list Storage) :
  loaded (concat (map (fun s => trace (reload_one env s)) storages)) =
    List.filter (fun s => match op_GetStorageByMountPath env (MountPath s) with
                          | inl d => match Drop env d with
                                     | None => true
                                     | Some _ => false
                                     end
                          | inr _ => false
                          end) storages.
Proof.
  induction storages as [|s l IH]; [reflexivity|].
  cbn [map concat List.filter]. rewrite loaded_app, IH.
  pose proof (reload_one_cases env s) as Hc. cbv zeta in Hc.
  destruct (op_GetStorageByMountPath env (MountPath s)) as [d|e];
    [destruct (Drop env d); [|destruct (op_LoadStorage env s)]|];
    rewrite Hc; reflexivity.
Qed.

Lemma dropped_turns (env : Env) (storages : list Storage) :
  dropped (concat (map (fun s => trace (reload_one env s)) storages)) =
    omap (fun s => match op_GetStorageByMountPath env (MountPath s) with
                   | inl d => Some d
                   | inr _ => None
                   end) storages.
Proof.
  induction storages as [|s l IH]; [reflexivity|].
  cbn [map concat omap list_omap]. rewrite dropped_app, IH.
  pose proof (reload_one_cases env s) as Hc. cbv zeta in Hc.
  destruct (op_GetStorageByMountPath env (MountPath s)) as [d|e];
    [destruct (Drop env d); [|destruct (op_LoadStorage env s)]|];
    rewrite Hc; reflexivity.
Qed.

Lemma reload_trace (env : Env) (storages : list Storage) :
  trace (reload env storages) =
    concat (map (fun s => trace (reload_one env s)) storages) ++
    [ConfSendStoragesLoadedSignal].
Proof.
  unfold reload. run. pose proof (reload_loop_trace env storages) as Hl.
  unfold trace in *. now rewrite Hl.
Qed.

(** X7. The background task of a reload drops exactly the drivers that
    resolve, and re-initialises exactly the storages of the snapshot whose
    driver resolved and was dropped without error, each once and in
    snapshot order. A storage whose driver does not resolve (it is not live)
    is therefore never re-initialised by a reload. *)
Theorem reload_reinitialises_resolved_and_dropped
    (env : Env) (storages : list Storage) :
  loaded (trace (reload env storages)) =
    List.filter (fun s => match op_GetStorageByMountPath env (MountPath s) with
                          | inl d => match Drop env d with
                                     | None => true
                                     | Some _ => false
                                     end
                          | inr _ => false
                          end) storages /\
  dropped (trace (reload env storages)) =
    omap (fun s => match op_GetStorageByMountPath env (MountPath s) with
                   | inl d => Some d
                   | inr _ => None
                   end) storages /\
  (forall s, (exists e, op_GetStorageByMountPath env (MountPath s) = inr e) ->
     ~ In s (loaded (trace (reload env storages)))).
Proof.
  rewrite reload_trace, loaded_app, dropped_app, loaded_turns, dropped_turns.
  cbn [loaded dropped]. rewrite !List.app_nil_r.
  split; [reflexivity|]. split; [reflexivity|].
  intros s [e He]. rewrite filter_In, He. intros [_ H]. discriminate.
Qed.

Lemma reload_reinitialises_resolved_and_dropped_witness:
  (* the drop of /u2/other fails: it is dropped but not re-initialised *)
  loaded (trace (reload Sample.env [Sample.drive; Sample.other; Sample.home])) =
    [Sample.drive; Sample.home] /\
  dropped (trace (reload Sample.env [Sample.drive; Sample.other; Sample.home])) =
    [mkDriver Sample.drive true; mkDriver Sample.other true; mkDriver Sample.home false] /\
  ~ In (mkStorage 13 "/gone" "Local" false)
       (loaded (trace (reload Sample.env [mkStorage 13 "/gone" "Local" false]))).
Proof.
  pose proof (reload_reinitialises_resolved_and_dropped Sample.env
                [Sample.drive; Sample.other; Sample.home]) as (Hl & Hd & _).
  pose proof (reload_reinitialises_resolved_and_dropped Sample.env
                [mkStorage 13 "/gone" "Local" false]) as (_ & _ & Hn).
  split; [exact Hl|]. split; [exact Hd|].
  apply Hn. eexists. reflexivity.
Defined.

(** X8. A non-admin request with a canonical rooted path, from a caller
    with a canonical [BasePath], is never refused by the path check: a path
    that does not start with [BasePath] is stored as [BasePath] followed by
    the path, any other as it is, and in both cases the store is called
    with a record under [BasePath]. The same holds for the new path of an
    Update of an owned record. *)
Theorem canonical_request_is_never_refused
    (env : Env) (c : gin_Context) (user : User) (req : Storage)
    (e : string) (rs ss : list string)
    (Hreq : ShouldBind_Storage c = inl req)
    (Huser : UserKey c = Some user)
    (Hnonadmin : IsAdmin user = false)
    (Hbase : BasePath user = render (e :: rs))
    (Hcb : forallb clean_elem (e :: rs) = true)
    (Hpath : MountPath req = render ss)
    (Hcp : forallb clean_elem ss = true) :
  let stored := if GoStrings.HasPrefix (MountPath req) (BasePath user) then req
                else set_MountPath req (BasePath user +:+ MountPath req) in
  GoStrings.HasPrefix (MountPath stored) (BasePath user) = true /\
  store_calls (trace (CreateStorage env c)) = [OpCreateStorage stored] /\
  (forall oldS, db_GetStorageById env (ID req) = inl oldS ->
     GoStrings.HasPrefix (MountPath oldS) (BasePath user) = true ->
     UpdateStorage env c =
       (finish (op_UpdateStorage env stored),
        [DbGetStorageById (ID req); OpUpdateStorage stored])).
Proof.
  intros stored.
  assert (Hrw : rewrite_MountPath user req = stored).
  { subst stored. unfold rewrite_MountPath.
    destruct (GoStrings.HasPrefix (MountPath req) (BasePath user)); [reflexivity|].
    simpl. rewrite Hbase, Hpath, (Join_canonical e rs ss Hcb Hcp), render_app.
    reflexivity. }
  assert (Hunder : GoStrings.HasPrefix (MountPath stored) (BasePath user) = true).
  { subst stored.
    destruct (GoStrings.HasPrefix (MountPath req) (BasePath user)) eqn:Hp; [exact Hp|].
    apply HasPrefix_app. }
  split; [exact Hunder|]. split.
  - rewrite (CreateStorage_nonadmin env c user Huser Hnonadmin req Hreq), Hrw, Hunder.
    run. apply (create_store_calls env stored).
  - intros oldS Hdb Hown.
    rewrite (UpdateStorage_nonadmin env c user Huser Hnonadmin req Hreq).
    run. rewrite Hdb, Hown, Hrw, Hunder, update_eq. reflexivity.
Qed.

Lemma canonical_request_is_never_refused_witness :
  store_calls (trace (CreateStorage Sample.env
      (Sample.ctx Sample.tenant "" (mkStorage 0 "/u2/other" "Local" false)))) =
    [OpCreateStorage (mkStorage 0 "/u1/u2/other" "Local" false)].
Proof.
  exact (proj1 (proj2 (canonical_request_is_never_refused Sample.env
           (Sample.ctx Sample.tenant "" (mkStorage 0 "/u2/other" "Local" false))
           Sample.tenant (mkStorage 0 "/u2/other" "Local" false)
           "u1" [] ["u2"; "other"] eq_refl eq_refl eq_refl eq_refl eq_refl eq_refl eq_refl))).
Defined.

(** X9. What a tenant mounts is what the tenant is shown: when a non-admin
    Create of a canonical, non-empty path that does not start with the
    (canonical) [BasePath] reaches the store, a later Get by the same
    caller of a record with the stored path presents the path as it was
    requested. *)
Theorem created_path_is_shown_as_requested
    (env : Env) (c : gin_Context) (user : User) (req : Storage)
    (e s0 : string) (rs ss : list string)
    (Hreq : ShouldBind_Storage c = inl req)
    (Huser : UserKey c = Some user)
    (Hnonadmin : IsAdmin user = false)
    (Hbase : BasePath user = render (e :: rs))
    (Hcb : forallb clean_elem (e :: rs) = true)
    (Hpath : MountPath req = render (s0 :: ss))
    (Hcp : forallb clean_elem (s0 :: ss) = true)
    (Hout : GoStrings.HasPrefix (MountPath req) (BasePath user) = false) :
  forall stored, In (OpCreateStorage stored) (trace (CreateStorage env c)) ->
  forall (env' : Env) (c' : gin_Context) (id : Z) (rec : Storage),
    UserKey c' = Some user ->
    strconv_Atoi env' (Query_id c') = inl id ->
    db_GetStorageById env' (uint id) = inl rec ->
    MountPath rec = MountPath stored ->
    GetStorage env' c' =
      (SuccessResp (Some (StorageData (set_MountPath rec (MountPath req)))),
       [DbGetStorageById (uint id)]).
Proof.
  intros stored Hin env' c' id rec Huser' Hid Hdb Hmp.
  pose proof (canonical_request_is_never_refused env c user req e rs (s0 :: ss)
                Hreq Huser Hnonadmin Hbase Hcb Hpath Hcp) as H.
  cbv zeta in H. rewrite Hout in H. destruct H as (Hunder & Hcalls & _).
  assert (Hst : stored = set_MountPath req (BasePath user +:+ MountPath req)).
  { assert (Hin' : In (OpCreateStorage stored) (store_calls (trace (CreateStorage env c))))
      by (apply filter_In; split; [exact Hin | reflexivity]).
    rewrite Hcalls in Hin'. destruct Hin' as [Heq|[]]. now inversion Heq. }
  rewrite (GetStorage_nonadmin env' c' user Huser' Hnonadmin id Hid), Hdb, Hmp, Hst.
  cbn [MountPath set_MountPath]. rewrite HasPrefix_app, ToRelative_app, Hpath.
  reflexivity.
Qed.

Lemma created_path_is_shown_as_requested_witness :
  GetStorage Sample.env (Sample.ctx Sample.tenant "7" Sample.drive) =
    (SuccessResp (Some (StorageData (mkStorage 7 "/drive" "Local" false))),
     [DbGetStorageById 7]).
Proof.
  apply (created_path_is_shown_as_requested Sample.env
           (Sample.ctx Sample.tenant "" (mkStorage 0 "/drive" "Local" false))
           Sample.tenant (mkStorage 0 "/drive" "Local" false) "u1" "drive" [] []
           eq_refl eq_refl eq_refl eq_refl eq_refl eq_refl eq_refl eq_refl
           (mkStorage 0 "/u1/drive" "Local" false) (or_intror (or_introl eq_refl))
           Sample.env (Sample.ctx Sample.tenant "7" Sample.drive) 7 Sample.drive
           eq_refl eq_refl eq_refl eq_refl).
Defined.

(** ** Further properties of the aggregation *)
Section AggregatorMore.

Context (env : Env) (sched : Sched).

Lemma enqueue_length (m : nat * detailWithIndex) (chan : list (nat * detailWithIndex)) :
  length (enqueue m chan) = S (length chan).
Proof.
  induction chan as [|m' chan IH]; [reflexivity|]. simpl.
  destruct (Nat.leb m.1 m'.1); simpl; [reflexivity | now rewrite IH].
Qed.

Lemma enqueue_Permutation (m : nat * detailWithIndex) (chan : list (nat * detailWithIndex)) :
  enqueue m chan ≡ₚ m :: chan.
Proof.
  induction chan as [|m' chan IH]; [reflexivity|]. simpl.
  destruct (Nat.leb m.1 m'.1); [reflexivity|].
  rewrite IH. apply perm_swap.
Qed.

Lemma enqueue_Sorted (m : nat * detailWithIndex) (chan : list (nat * detailWithIndex)) :
  Sorted le (map fst chan) -> Sorted le (map fst (enqueue m chan)).
Proof.
  induction chan as [|m' chan IH]; intros Hs; simpl.
  - repeat constructor.
  - destruct (Nat.leb_spec m.1 m'.1) as [Hle|Hlt]; simpl.
    + constructor; [exact Hs|]. constructor. exact Hle.
    + apply Sorted_inv in Hs as [Hs Hhd]. constructor; [apply IH, Hs|].
      destruct chan as [|m'' chan]; simpl.
      * constructor. lia.
      * destruct (Nat.leb m.1 m''.1); simpl; constructor; [lia|].
        now inversion Hhd.
Qed.

Lemma detailsChan_Sorted (workers : list (nat * driver_Driver)) :
  Sorted le (map fst (detailsChan env sched workers)).
Proof.
  induction workers as [|[i d] workers IH]; simpl; [constructor|].
  destruct (arrival sched i); [apply enqueue_Sorted, IH | exact IH].
Qed.

Lemma detailsChan_NoDup (workers : list (nat * driver_Driver)) :
  NoDup (map fst workers) ->
  NoDup (map (fun m => idx m.2) (detailsChan env sched workers)).
Proof.
  induction workers as [|[i d] workers IH]; [constructor|].
  cbn [detailsChan map fst]. intros [Hi Hnd]%NoDup_cons. specialize (IH Hnd).
  destruct (arrival sched i) as [t|]; [|exact IH].
  rewrite (enqueue_Permutation _ _). cbn [map snd]. rewrite worker_result. cbn [idx].
  constructor; [|exact IH].
  rewrite list_elem_of_In, in_map_iff. intros [[t' m] [Hm Hin]]. simpl in Hm.
  apply detailsChan_In in Hin as [d' [Hin _]]. apply Hi.
  rewrite list_elem_of_In, in_map_iff. exists (idx m, d'). rewrite Hm in *. auto.
Qed.

Lemma detailsChan_complete (workers : list (nat * driver_Driver)) (i t : nat)
    (d : driver_Driver) :
  In (i, d) workers -> arrival sched i = Some t ->
  In (t, mkDetailWithIndex i (op_GetStorageDetails env d).1) (detailsChan env sched workers).
Proof.
  induction workers as [|[j d'] workers IH]; [intros []|].
  cbn [detailsChan]. intros [H|H] Harr.
  - inversion H; subst. rewrite Harr, enqueue_In, worker_result. now left.
  - destruct (arrival sched j); [rewrite enqueue_In; right|]; now apply IH.
Qed.

Lemma detailsChan_length (workers : list (nat * driver_Driver)) :
  (forall i d, In (i, d) workers -> exists t, arrival sched i = Some t) ->
  length (detailsChan env sched workers) = length workers.
Proof.
  induction workers as [|[j d'] workers IH]; [reflexivity|]. intros H.
  cbn [detailsChan]. destruct (H j d' (or_introl eq_refl)) as [t Ht]. rewrite Ht.
  rewrite enqueue_length. simpl. f_equal. apply IH.
  intros i d Hin. apply (H i d). now right.
Qed.

Lemma dispatch_workers_complete (user : option User) (l : list Storage) (i k : nat)
    (s : Storage) (d : driver_Driver) :
  l !! k = Some s -> eligible env (MountPath (strip_BasePath user s)) = Some d ->
  In ((i + k)%nat, d) (result (dispatch env user i l)).2.
Proof.
  revert i k. induction l as [|s0 l IH]; intros i k Hk He; [discriminate|].
  rewrite dispatch_cons. cbn [snd]. destruct k as [|k].
  - inversion Hk; subst s0. rewrite He, Nat.add_0_r. now left.
  - replace (i + S k)%nat with (S i + k)%nat by lia.
    specialize (IH (S i) k Hk He).
    destruct (eligible env (MountPath (strip_BasePath user s0))); [right|]; exact IH.
Qed.

Lemma dispatch_lookup (user : option User) (l : list Storage) (i k : nat) (s : Storage) :
  l !! k = Some s ->
  (result (dispatch env user i l)).1 !! k = Some (mkStorageResp (strip_BasePath user s) None).
Proof.
  revert i k. induction l as [|s0 l IH]; intros i k Hk; [discriminate|].
  rewrite dispatch_cons. cbn [fst]. destruct k as [|k]; [now inversion Hk|].
  apply (IH (S i) k Hk).
Qed.

Lemma deliver_lookup_other (ms : list detailWithIndex) (ret : list StorageResp) (i : nat) :
  (forall m, In m ms -> idx m <> i) -> deliver ret ms !! i = ret !! i.
Proof.
  revert ret. induction ms as [|m ms IH]; intros ret H; [reflexivity|].
  simpl. rewrite IH by (intros m' Hm'; apply H; now right).
  apply list_lookup_alter_ne, H. now left.
Qed.

Lemma deliver_lookup_hit (ms : list detailWithIndex) (ret : list StorageResp)
    (m : detailWithIndex) :
  NoDup (map idx ms) -> In m ms ->
  deliver ret ms !! idx m = set_MountDetails (val m) <$> ret !! idx m.
Proof.
  revert ret. induction ms as [|m0 ms IH]; intros ret Hnd Hin; [destruct Hin|].
  cbn [map] in Hnd. apply NoDup_cons in Hnd as [Hm0 Hnd]. simpl.
  destruct Hin as [->|Hin].
  - rewrite deliver_lookup_other; [apply list_lookup_alter_eq|].
    intros m' Hm' Heq. apply Hm0. rewrite list_elem_of_In, in_map_iff. eauto.
  - rewrite (IH _ Hnd Hin). rewrite list_lookup_alter_ne; [reflexivity|].
    intros Heq. apply Hm0. rewrite list_elem_of_In, in_map_iff. eauto.
Qed.

(** The loop receives a run of messages from the front of the channel and
    then, unless every goroutine was heard, the timer once. *)
Lemma collect_prefix (w now : nat) (chan : list (nat * detailWithIndex))
    (ret : list StorageResp) :
  exists k, (k <= w)%nat /\ (k <= length chan)%nat /\
    (result (collect sched w now chan ret)).1 = deliver ret (map snd (take k chan)) /\
    trace (collect sched w now chan ret) =
      map (fun m => ChanRecv m.2) (take k chan) ++
      (if Nat.ltb k w then [TimeAfterFired] else []) /\
    (k < w -> now + 3000 <= (result (collect sched w now chan ret)).2)%nat.
Proof.
  revert now chan ret. induction w as [|w IH]; intros now chan ret.
  - exists 0%nat. simpl. repeat split; lia.
  - rewrite collect_S. destruct chan as [|[t r] chan'].
    + exists 0%nat. simpl. repeat split; lia.
    + destruct (_ || _).
      * destruct (IH (Nat.max now t) chan' (alter (set_MountDetails (val r)) (idx r) ret))
          as (k & Hk & Hlen & Hres & Htr & Htime).
        exists (S k). cbn [result trace fst snd].
        fold (@result (list StorageResp * nat)). fold (@trace (list StorageResp * nat)).
        split; [lia|]. split; [simpl; lia|]. split; [exact Hres|]. split.
        -- rewrite Htr. reflexivity.
        -- intros Hlt. assert (k < w)%nat by lia. specialize (Htime H). lia.
      * exists 0%nat. simpl. repeat split; lia.
Qed.

(** When every message on the channel arrives before [bound], which is
    no later than the first timer, and there is one per goroutine, all are
    received and the loop is left before [bound]. *)
Lemma collect_all (chan : list (nat * detailWithIndex)) (now bound : nat)
    (ret : list StorageResp) :
  Forall (fun m => m.1 < bound)%nat chan ->
  (now < bound <= now + 3000)%nat ->
  (result (collect sched (length chan) now chan ret)).1 = deliver ret (map snd chan) /\
  trace (collect sched (length chan) now chan ret) = map (fun m => ChanRecv m.2) chan /\
  ((result (collect sched (length chan) now chan ret)).2 < bound)%nat.
Proof.
  revert now ret. induction chan as [|[t r] chan IH]; intros now ret Hall Hb.
  - simpl. repeat split. lia.
  - apply Forall_cons in Hall as [Ht Hall]. simpl in Ht.
    cbn [length]. rewrite collect_S.
    assert (Hlt : Nat.ltb t (now + 3000) = true) by (apply Nat.ltb_lt; lia).
    rewrite Hlt. cbn [orb result trace fst snd].
    fold (@result (list StorageResp * nat)). fold (@trace (list StorageResp * nat)).
    destruct (IH (Nat.max now t) (alter (set_MountDetails (val r)) (idx r) ret) Hall)
      as (Hres & Htr & Htime); [lia|].
    split; [exact Hres|]. split; [now rewrite Htr | exact Htime].
Qed.

End AggregatorMore.

Lemma dispatch_no_timer (env : Env) (user : option User) (l : list Storage) (i : nat) :
  ~ In TimeAfterFired (trace (dispatch env user i l)).
Proof.
  revert i. induction l as [|s l IH]; intros i; [intros []|].
  rewrite dispatch_trace_cons. intros [H|H]%in_app_or; [|exact (IH _ H)].
  destruct (HideStorageDetailsInManagePage env); [destruct H|].
  destruct H as [H|H]; [discriminate|].
  destruct (eligible env (MountPath (strip_BasePath user s))); [|destruct H].
  destruct H as [H|[]]. discriminate.
Qed.

(** X10. When every goroutine that was started reports within the first
    3000 ms, the loop hears all of them and the timer never fires: each
    slot whose record has a resolvable driver with the details capability
    (and the flag is off) holds exactly what the fetch of that driver
    returned, every other slot is nil, and the loop is left before
    3000 ms. *)
Theorem prompt_reports_fill_every_slot
    (env : Env) (sched : Sched) (ctx : gin_Context) (storages : list Storage)
    (Hprompt : forall i d, In (i, d) (started env ctx storages) ->
                 exists t, arrival sched i = Some t /\ (t < 3000)%nat) :
  (forall i s, storages !! i = Some s ->
     result (makeStorageResp env sched ctx storages) !! i =
       Some (mkStorageResp (strip_BasePath (UserKey ctx) s)
               match eligible env (MountPath (strip_BasePath (UserKey ctx) s)) with
               | Some d => (op_GetStorageDetails env d).1
               | None => None
               end)) /\
  ~ In TimeAfterFired (trace (makeStorageResp env sched ctx storages)) /\
  ((result (makeStorageResp_timed env sched ctx storages)).2 < 3000)%nat.
Proof.
  set (chan := detailsChan env sched (started env ctx storages)).
  assert (Hlen : length chan = length (started env ctx storages)).
  { apply detailsChan_length. intros i d Hin.
    destruct (Hprompt i d Hin) as [t [Ht _]]. eauto. }
  assert (Hall : Forall (fun m => m.1 < 3000)%nat chan).
  { rewrite Forall_forall. intros [t m] Hin%list_elem_of_In.
    apply detailsChan_In in Hin as [d [Hin [Harr _]]].
    destruct (Hprompt _ _ Hin) as [t' [Ht' Hlt]]. simpl.
    rewrite Harr in Ht'. inversion Ht'. lia. }
  destruct (collect_all sched chan 0 3000 (result (dispatch env (UserKey ctx) 0 storages)).1
              Hall ltac:(lia)) as (Hres & Htr & Htime).
  rewrite makeStorageResp_eq, makeStorageResp_timed_eq.
  fold chan. rewrite <- Hlen. cbn [result trace fst snd].
  fold (@result (list StorageResp * nat)). fold (@trace (list StorageResp * nat)).
  split; [|split; [|exact Htime]].
  - intros i s Hs. rewrite Hres.
    pose proof (dispatch_lookup env (UserKey ctx) storages 0 i s Hs) as Hslot.
    destruct (eligible env (MountPath (strip_BasePath (UserKey ctx) s))) as [d|] eqn:He.
    + pose proof (dispatch_workers_complete env (UserKey ctx) storages 0 i s d Hs He) as Hin.
      simpl in Hin. destruct (Hprompt i d Hin) as [t [Harr _]].
      pose proof (detailsChan_complete env sched _ i t d Hin Harr) as Hm.
      assert (Hmsg : In (mkDetailWithIndex i (op_GetStorageDetails env d).1) (map snd chan))
        by (apply in_map_iff; exists (t, mkDetailWithIndex i (op_GetStorageDetails env d).1);
            split; [reflexivity | exact Hm]).
      assert (Hnd : NoDup (map idx (map snd chan))).
      { rewrite map_map. apply (detailsChan_NoDup env sched), dispatch_workers_NoDup. }
      pose proof (deliver_lookup_hit _ (result (dispatch env (UserKey ctx) 0 storages)).1
                    _ Hnd Hmsg) as Hhit.
      cbn [idx val] in Hhit. rewrite Hhit, Hslot. reflexivity.
    + rewrite deliver_lookup_other; [exact Hslot|].
      intros m [[t m'] [Hm' Hin]]%in_map_iff Hidx. simpl in Hm'. subst m'.
      apply detailsChan_In in Hin as [d [Hin _]]. rewrite Hidx in Hin.
      apply dispatch_workers in Hin as [_ [s' [Hs' He']]].
      rewrite Nat.sub_0_r, Hs in Hs'. inversion Hs'; subst s'. congruence.
  - rewrite Htr. intros [H|H]%in_app_or.
    + exact (dispatch_no_timer env _ _ _ H).
    + apply in_map_iff in H as [m [Hm _]]. discriminate.
Qed.

Lemma prompt_reports_fill_every_slot_witness :
  result (makeStorageResp Edge.env_signed Edge.sched_fast
            (Sample.ctx Sample.admin "" Sample.drive)
            [Sample.drive; Sample.other; Sample.home]) =
    [mkStorageResp Sample.drive (Some Sample.details);
     mkStorageResp Sample.other (Some Sample.details);
     mkStorageResp Sample.home None] /\
  result (makeStorageResp Edge.env_signed Edge.sched_fast
            (Sample.ctx Sample.admin "" Sample.drive)
            [Sample.drive; Sample.other; Sample.home]) !! 1%nat =
    Some (mkStorageResp Sample.other (Some Sample.details)).
Proof.
  split; [reflexivity|].
  refine (proj1 (prompt_reports_fill_every_slot Edge.env_signed Edge.sched_fast
                   (Sample.ctx Sample.admin "" Sample.drive)
                   [Sample.drive; Sample.other; Sample.home] _) 1%nat Sample.other eq_refl).
  intros i d Hin. exists (100 * (i + 1))%nat. split; [reflexivity|].
  simpl in Hin. destruct Hin as [H|[H|[]]]; inversion H; subst; simpl; lia.
Defined.

(** X11. The loop hears the goroutines in the order in which they report
    and stops at the first wait that lasts 3000 ms: what it receives is a
    run from the front of the channel, which is ordered by arrival time;
    the slots are those run's values written over the nil slots; the timer
    fires at most once, as the last event, exactly when fewer messages
    were received than goroutines were started, and then the loop has
    lasted at least 3000 ms. Nothing is received after the timer. *)
Theorem receptions_are_a_prefix_of_arrivals
    (env : Env) (sched : Sched) (ctx : gin_Context) (storages : list Storage) :
  let chan := detailsChan env sched (started env ctx storages) in
  let workerCount := length (started env ctx storages) in
  Sorted le (map fst chan) /\
  exists k, (k <= workerCount)%nat /\ (k <= length chan)%nat /\
    trace (makeStorageResp env sched ctx storages) =
      trace (dispatch env (UserKey ctx) 0 storages) ++
      map (fun m => ChanRecv m.2) (take k chan) ++
      (if Nat.ltb k workerCount then [TimeAfterFired] else []) /\
    result (makeStorageResp env sched ctx storages) =
      deliver (result (dispatch env (UserKey ctx) 0 storages)).1 (map snd (take k chan)) /\
    (k < workerCount ->
     3000 <= (result (makeStorageResp_timed env sched ctx storages)).2)%nat.
Proof.
  intros chan workerCount. split; [apply detailsChan_Sorted|].
  destruct (collect_prefix sched workerCount 0 chan
              (result (dispatch env (UserKey ctx) 0 storages)).1)
    as (k & Hk & Hlen & Hres & Htr & Htime).
  exists k. rewrite makeStorageResp_eq, makeStorageResp_timed_eq.
  fold chan workerCount. cbn [result trace fst snd].
  fold (@result (list StorageResp * nat)). fold (@trace (list StorageResp * nat)).
  rewrite Htr, Hres. repeat split; assumption.
Qed.

Lemma receptions_are_a_prefix_of_arrivals_witness :
  (* three goroutines, only the first reports: one reception, then the timer *)
  exists k, (k <= 3)%nat /\
    trace (makeStorageResp Edge.env_signed Edge.sched_one
             (Sample.ctx Sample.admin "" Sample.drive)
             [Sample.drive; Sample.other; Sample.drive]) =
      trace (dispatch Edge.env_signed (Some Sample.admin) 0
               [Sample.drive; Sample.other; Sample.drive]) ++
      map (fun m => ChanRecv m.2)
          (take k [(1000%nat, mkDetailWithIndex 0 (Some Sample.details))]) ++
      (if Nat.ltb k 3 then [TimeAfterFired] else []) /\
    (k < 3 -> 3000 <= (result (makeStorageResp_timed Edge.env_signed Edge.sched_one
                                  (Sample.ctx Sample.admin "" Sample.drive)
                                  [Sample.drive; Sample.other; Sample.drive])).2)%nat.
Proof.
  destruct (receptions_are_a_prefix_of_arrivals Edge.env_signed Edge.sched_one
              (Sample.ctx Sample.admin "" Sample.drive)
              [Sample.drive; Sample.other; Sample.drive])
    as (_ & k & Hk & _ & Htr & _ & Htime).
  exists k. split; [exact Hk|]. split; [exact Htr | exact Htime].
Defined.






Lemma reload_drops (env : Env) (storages : list Storage) (s : Storage) (d : driver_Driver) :
  In s storages -> op_GetStorageByMountPath env (MountPath s) = inl d ->
  In (DriverDrop d) (trace (reload env storages)).
Proof.
  intros Hin Hres. rewrite reload_trace. apply in_or_app. left.
  apply in_concat. exists (trace (reload_one env s)). split.
  - apply in_map_iff. exists s. auto.
  - pose proof (reload_one_cases env s) as Hc. cbv zeta in Hc. rewrite Hres in Hc.
    destruct (Drop env d); [|destruct (op_LoadStorage env s)]; rewrite Hc;
      right; left; reflexivity.
Qed.

(** X13. Through Create, Update, Delete, Disable and Enable a non-admin
    caller never makes the store change anything outside the caller's
    prefix: a record handed to create or update starts with [BasePath] (and
    an update is made only for an existing record that does too), and
    delete, disable and enable are called only with an id whose record
    loads and starts with [BasePath]. [LoadAllStorages] is not scoped: it
    reads no user, and for a non-admin caller too its reload drops the
    driver of every enabled storage that resolves, whatever its
    [MountPath]. *)
Theorem nonadmin_mutations_are_confined_except_reload
    (env : Env) (c : gin_Context) (user : User)
    (Huser : UserKey c = Some user)
    (Hnonadmin : IsAdmin user = false) :
  (forall s, In (OpCreateStorage s) (trace (CreateStorage env c)) ->
     GoStrings.HasPrefix (MountPath s) (BasePath user) = true) /\
  (forall s, In (OpUpdateStorage s) (trace (UpdateStorage env c)) ->
     GoStrings.HasPrefix (MountPath s) (BasePath user) = true /\
     owned env user (ID s) = true) /\
  (forall id, In (OpDeleteStorageById id) (trace (DeleteStorage env c)) ->
     owned env user id = true) /\
  (forall id, In (OpDisableStorage id) (trace (DisableStorage env c)) ->
     owned env user id = true) /\
  (forall id, In (OpEnableStorage id) (trace (EnableStorage env c)) ->
     owned env user id = true) /\
  (forall storages s d, db_GetEnabledStorages env = inl storages ->
     In s storages -> op_GetStorageByMountPath env (MountPath s) = inl d ->
     In (Go (trace (reload env storages))) (trace (LoadAllStorages env c)) /\
     In (DriverDrop d) (trace (reload env storages)) /\
     existsb mutates (trace (LoadAllStorages env c)) = true).
Proof.
  split; [|split; [|split; [|split; [|split]]]].
  - intros s. destruct (ShouldBind_Storage c) as [req|err] eqn:Hreq.
    + rewrite (CreateStorage_nonadmin env c user Huser Hnonadmin req Hreq). run.
      destruct (GoStrings.HasPrefix (MountPath (rewrite_MountPath user req)) (BasePath user))
        eqn:Hp; simpl.
      * unfold create. run.
        destruct (op_CreateStorage env (rewrite_MountPath user req)) as [id [e|]]; simpl;
          intros [H|[H|H]]; try discriminate;
          try (inversion H; subst; exact Hp).
        all: destruct H as [H|H]; [discriminate | destruct H].
      * intros [H|[]]. discriminate.
    + unfold CreateStorage. rewrite Hreq. intros [].
  - intros s. destruct (ShouldBind_Storage c) as [req|err] eqn:Hreq.
    + rewrite (UpdateStorage_nonadmin env c user Huser Hnonadmin req Hreq). run.
      unfold owned.
      destruct (db_GetStorageById env (ID req)) as [oldS|e] eqn:Hdb; simpl;
        [|intros [H|[]]; discriminate].
      destruct (GoStrings.HasPrefix (MountPath oldS) (BasePath user)) eqn:Hown; simpl;
        [|intros [H|[]]; discriminate].
      destruct (GoStrings.HasPrefix (MountPath (rewrite_MountPath user req)) (BasePath user))
        eqn:Hp; simpl; [|intros [H|[]]; discriminate].
      unfold update. run.
      destruct (op_UpdateStorage env (rewrite_MountPath user req)); simpl;
        (intros [H|[H|[]]]; [discriminate|]).
      all: inversion H; subst; split; [exact Hp|].
      all: assert (Hid : ID (rewrite_MountPath user req) = ID req)
        by (unfold rewrite_MountPath; destruct (negb _); reflexivity).
      all: now rewrite Hid, Hdb.
    + unfold UpdateStorage. rewrite Hreq. intros [].
  - intros id. destruct (strconv_Atoi env (Query_id c)) as [n|err] eqn:Hid.
    + rewrite (DeleteStorage_nonadmin env c user Huser Hnonadmin n Hid).
      destruct (owned env user (uint n)) eqn:Ho; simpl.
      * intros [H|[H|[]]]; [discriminate|]. now inversion H; subst.
      * intros [H|[]]. discriminate.
    + unfold DeleteStorage. rewrite Hid. intros [].
  - intros id. destruct (strconv_Atoi env (Query_id c)) as [n|err] eqn:Hid.
    + rewrite (DisableStorage_nonadmin env c user Huser Hnonadmin n Hid).
      destruct (owned env user (uint n)) eqn:Ho; simpl.
      * intros [H|[H|[]]]; [discriminate|]. now inversion H; subst.
      * intros [H|[]]. discriminate.
    + unfold DisableStorage. rewrite Hid. intros [].
  - intros id. destruct (strconv_Atoi env (Query_id c)) as [n|err] eqn:Hid.
    + rewrite (EnableStorage_nonadmin env c user Huser Hnonadmin n Hid).
      destruct (owned env user (uint n)) eqn:Ho; simpl.
      * intros [H|[H|[]]]; [discriminate|]. now inversion H; subst.
      * intros [H|[]]. discriminate.
    + unfold EnableStorage. rewrite Hid. intros [].
  - intros storages s d Hdb Hin Hres.
    assert (Htr : trace (LoadAllStorages env c) =
                  [DbGetEnabledStorages; ConfResetStoragesLoadSignal;
                   Go (trace (reload env storages))])
      by (unfold LoadAllStorages; run; now rewrite Hdb).
    pose proof (reload_drops env storages s d Hin Hres) as Hdrop.
    split; [rewrite Htr; right; right; left; reflexivity|].
    split; [exact Hdrop|].
    rewrite Htr.
    change (false || (false || (existsb mutates (trace (reload env storages)) || false))
            = true).
    assert (Hex : existsb mutates (trace (reload env storages)) = true)
      by (apply existsb_exists; exists (DriverDrop d); split; [exact Hdrop | reflexivity]).
    now rewrite Hex.
Qed.

Lemma nonadmin_mutations_are_confined_except_reload_witness :
  (* the tenant of /u1: a Create is moved under /u1, record 7 is the
     tenant's own, and a reload drops the driver of /u2/other *)
  GoStrings.HasPrefix "/u1/u2/other" (BasePath Sample.tenant) = true /\
  owned Sample.env Sample.tenant 7 = true /\
  In (DriverDrop (mkDriver Sample.other true))
     (trace (reload Sample.env [Sample.drive; Sample.other; Sample.home])) /\
  existsb mutates (trace (LoadAllStorages Sample.env
                            (Sample.ctx Sample.tenant "7" Sample.drive))) = true.
Proof.
  pose proof (nonadmin_mutations_are_confined_except_reload Sample.env
                (Sample.ctx Sample.tenant "7" (mkStorage 0 "/u2/other" "Local" false))
                Sample.tenant eq_refl eq_refl) as (Hc & _ & Hd & _ & _ & _).
  pose proof (nonadmin_mutations_are_confined_except_reload Sample.env
                (Sample.ctx Sample.tenant "7" Sample.drive)
                Sample.tenant eq_refl eq_refl) as (_ & _ & _ & _ & _ & Hr).
  destruct (Hr [Sample.drive; Sample.other; Sample.home] Sample.other
               (mkDriver Sample.other true) eq_refl
               (or_intror (or_introl eq_refl)) eq_refl) as (_ & Hdrop & Hmut).
  split; [|split; [|split]].
  - apply (Hc (mkStorage 0 "/u1/u2/other" "Local" false)). right. left. reflexivity.
  - apply (Hd 7). right. left. reflexivity.
  - exact Hdrop.
  - exact Hmut.
Defined.

Lemma resolved_app (a b : list Call) : resolved (a ++ b) = resolved a ++ resolved b.
Proof.
  induction a as [|c a IH]; [reflexivity|]. destruct c; simpl; now rewrite ?IH.
Qed.

Lemma dispatch_resolved (env : Env) (user : option User) (l : list Storage) (i : nat) :
  resolved (trace (dispatch env user i l)) =
    if HideStorageDetailsInManagePage env then []
    else map (fun s => MountPath (strip_BasePath user s)) l.
Proof.
  revert i. induction l as [|s l IH]; intros i.
  - simpl. now destruct (HideStorageDetailsInManagePage env).
  - rewrite dispatch_trace_cons, resolved_app, IH.
    destruct (HideStorageDetailsInManagePage env); [reflexivity|].
    destruct (eligible env (MountPath (strip_BasePath user s))); reflexivity.
Qed.

Lemma collect_resolved (sched : Sched) (w now : nat) (chan : list (nat * detailWithIndex))
    (ret : list StorageResp) :
  resolved (trace (collect sched w now chan ret)) = [].
Proof.
  pose proof (collect_no_calls sched w now chan ret) as H.
  induction H as [|c t [->|[m ->]] _ IH]; simpl; auto.
Qed.

(** X14. [makeStorageResp] resolves the driver of a record under the path
    it shows, not under the path that is stored: with the flag off, the
    paths handed to [op.GetStorageByMountPath] are the viewer's views of the
    records, in order. For a non-admin viewer whose [BasePath] has at least
    two bytes, every record under [BasePath] is therefore looked up under
    a path that differs from its [MountPath]. *)
Theorem drivers_are_resolved_under_the_shown_path
    (env : Env) (sched : Sched) (ctx : gin_Context) (storages : list Storage) :
  resolved (trace (makeStorageResp env sched ctx storages)) =
    (if HideStorageDetailsInManagePage env then []
     else map MountPath (map Storage_ (result (makeStorageResp env sched ctx storages)))) /\
  (forall user s, UserKey ctx = Some user -> IsAdmin user = false ->
     (2 <= String.length (BasePath user))%nat ->
     GoStrings.HasPrefix (MountPath s) (BasePath user) = true ->
     MountPath (strip_BasePath (UserKey ctx) s) <> MountPath s).
Proof.
  split.
  - rewrite makeStorageResp_Storage, makeStorageResp_eq, makeStorageResp_timed_eq.
    cbn [trace snd]. rewrite resolved_app, (collect_resolved sched), List.app_nil_r.
    rewrite dispatch_resolved, map_map. reflexivity.
  - intros user s Huser Hna Hlen Hp. rewrite Huser.
    rewrite (strip_BasePath_ToRelative user s Hna Hp). cbn [MountPath set_MountPath].
    apply HasPrefix_inv in Hp.
    remember (GoStrings.drop (String.length (BasePath user)) (MountPath s)) as t.
    assert (Hl : String.length (MountPath s) =
                 (String.length (BasePath user) + String.length t)%nat)
      by (rewrite Hp at 1; apply append_length).
    rewrite Hp at 1. rewrite ToRelative_app. intros Heq.
    destruct (String.eqb_spec t "") as [Ht|Ht]; rewrite <- Heq in Hl.
    + change (String.length "/") with 1%nat in Hl. lia.
    + lia.
Qed.

Lemma drivers_are_resolved_under_the_shown_path_witness :
  resolved (trace (makeStorageResp Sample.env Sample.sched
                     (Sample.ctx Sample.tenant "" Sample.drive)
                     [Sample.drive; Sample.home])) = ["/drive"; "/"] /\
  MountPath (strip_BasePath (Some Sample.tenant) Sample.drive) <> MountPath Sample.drive.
Proof.
  pose proof (drivers_are_resolved_under_the_shown_path Sample.env Sample.sched
                (Sample.ctx Sample.tenant "" Sample.drive) [Sample.drive; Sample.home])
    as (Hres & Hdiff).
  split; [exact Hres|].
  apply (Hdiff Sample.tenant Sample.drive eq_refl eq_refl); [simpl; lia | reflexivity].
Defined.
